(** * The gas-watcher registry of discord-stock-ticker (gas_request.go)

    A shallow embedding of the three HTTP handlers of [gas_request.go]
    ([AddGas], [DeleteGas], [GetGas]) and of the helper [addGas], with the
    properties of the registry proved over it.

    Every handler of the source takes the manager's lock for its whole
    body ([m.Lock(); defer m.Unlock()]), so a handler is modelled as one
    atomic transition [State -> ResponseWriter * State].  Effects that the
    source performs in sequence (logging, the gauge, the map, the watcher
    goroutines) are recorded in order in the [trace] of the state. *)

From stdpp Require Import gmap strings list fin_maps pretty.
From Stdlib Require Import ZArith Ascii String.

Local Open Scope Z_scope.

(** ** Strings *)

(** [strings.ToUpper] on a key of ASCII bytes: the letters [a]..[z] are
    mapped to [A]..[Z] and every other byte is kept.  On a key with
    letters outside ASCII [strings.ToUpper] maps those too; such keys are
    outside this model, and the general theorems below use of [ToUpper]
    only that it is idempotent. *)
Definition upper_byte (c : ascii) : ascii :=
  let n := N_of_ascii c in
  if ((97 <=? n) && (n <=? 122))%N then ascii_of_N (n - 32) else c.

Fixpoint ToUpper (s : string) : string :=
  match s with
  | EmptyString => EmptyString
  | String c rest => String (upper_byte c) (ToUpper rest)
  end.

(** Go's [error] values: [None] is [nil], [Some msg] an error whose text is
    [msg]. *)
Definition error : Type := option string.

(** A call that returns [(value, err)]. *)
Inductive result (A : Type) : Type :=
| Ok (a : A)
| Err (e : string).
Arguments Ok {A} a.
Arguments Err {A} e.

(** ** The data model *)

(** [type GasRequest struct]: the json coming in from the request. *)
Module GasRequest.
Record t : Type := mk {
  Network : string;
  Token : string;
  Nickname : bool;
  Frequency : Z
}.
End GasRequest.

(** Modelled from the spec: [type Gas struct] is declared in gas.go, which
    is not part of this file.  Its fields here are those this file reads,
    [gas.Network], [gas.Nickname], [gas.Frequency] and the unexported
    [gas.token], and [watcher], the opaque handle to the running watcher
    that the spec gives every entry. *)
Module Gas.
Record t : Type := mk {
  Network : string;
  Nickname : bool;
  Frequency : Z;
  token : string;
  watcher : nat
}.
End Gas.

(** Modelled from the spec: the schema of the table [gases] is not
    declared in this file.  By the spec its columns are [id] (store-assigned
    primary key), [token], [nickname], [network] and [frequency].  A [Row]
    is a row without its [id]; the table is the finite map from the
    primary key to the row that has it. *)
Record Row : Type := mkRow {
  row_token : string;
  row_nickname : bool;
  row_network : string;
  row_frequency : Z
}.

(** The levels of [logger]. *)
Inductive Level : Type := LDebug | LInfo | LWarning | LError.

(** What a handler does besides answering, in the order it does it. *)
Inductive Event : Type :=
| Logged (lvl : Level) (msg : string)
| GaugeInc
| GaugeDec
| MapStore (key : string)
| MapDelete (key : string)
| WatcherStarted (h : nat)
| WatcherShutdown (h : nat).

(** The manager [m] with the package-level gauge [gasCount]: the map
    [m.WatchingGas], the table behind [m.DB] ([None] is the nil handle), the
    value of the gauge, the number of watchers started so far, and what
    the handlers did so far. *)
Record State : Type := mkState {
  WatchingGas : gmap string Gas.t;
  DB : option (gmap positive Row);
  gasCount : Z;
  watchers : nat;
  trace : list Event
}.

Definition logf (lvl : Level) (msg : string) (st : State) : State :=
  mkState (WatchingGas st) (DB st) (gasCount st) (watchers st)
          (trace st ++ [Logged lvl msg]).

Definition emit (evs : list Event) (st : State) : State :=
  mkState (WatchingGas st) (DB st) (gasCount st) (watchers st)
          (trace st ++ evs).

(** [gasCount.Inc()] and [gasCount.Dec()]. *)
Definition gasCount_Inc (st : State) : State :=
  mkState (WatchingGas st) (DB st) (gasCount st + 1) (watchers st)
          (trace st ++ [GaugeInc]).

Definition gasCount_Dec (st : State) : State :=
  mkState (WatchingGas st) (DB st) (gasCount st - 1) (watchers st)
          (trace st ++ [GaugeDec]).

(** [m.WatchingGas[id] = gas] and [delete(m.WatchingGas, id)]. *)
Definition map_store (id : string) (gas : Gas.t) (st : State) : State :=
  mkState (<[id := gas]> (WatchingGas st)) (DB st) (gasCount st) (watchers st)
          (trace st ++ [MapStore id]).

Definition map_delete (id : string) (st : State) : State :=
  mkState (delete id (WatchingGas st)) (DB st) (gasCount st) (watchers st)
          (trace st ++ [MapDelete id]).

Definition set_DB (db : gmap positive Row) (st : State) : State :=
  mkState (WatchingGas st) (Some db) (gasCount st) (watchers st) (trace st).

(** Modelled from the spec: [NewGas] is defined in gas.go, which is not
    part of this file.  By the spec it constructs a new entry from the
    values it is given and starts its watcher; the entry's key is
    case-normalized upper-case. *)
Definition NewGas (network token : string) (nickname : bool) (frequency : Z)
    (st : State) : Gas.t * State :=
  let h := watchers st in
  (Gas.mk (ToUpper network) nickname frequency token h,
   mkState (WatchingGas st) (DB st) (gasCount st) (S h)
           (trace st ++ [WatcherStarted h])).

(** Modelled from the spec: the method [Shutdown] of [Gas] is defined in gas.go, which
    is not part of this file.  By the spec it signals the entry's watcher to
    stop and returns without waiting for it. *)
Definition Shutdown (gas : Gas.t) (st : State) : State :=
  emit [WatcherShutdown (Gas.watcher gas)] st.

(** ** The HTTP side *)

Definition StatusOK : Z := 200.
Definition StatusNoContent : Z := 204.
Definition StatusBadRequest : Z := 400.
Definition StatusNotFound : Z := 404.
Definition StatusConflict : Z := 409.
Definition StatusInternalServerError : Z := 500.

(** [http.ResponseWriter]: the header map, the status line once it is
    written, and the bytes of the body.  [broken] is the error every
    [Write] on the connection returns, if it returns one. *)
Record ResponseWriter : Type := mkRW {
  header : gmap string string;
  status : option Z;
  body : string;
  broken : error
}.

Definition newResponseWriter (broken : error) : ResponseWriter :=
  mkRW ∅ None EmptyString broken.

(** [w.Header().Set(k, v)] *)
Definition Header_Set (k v : string) (w : ResponseWriter) : ResponseWriter :=
  mkRW (<[k := v]> (header w)) (status w) (body w) (broken w).

(** [w.WriteHeader(code)]: only the first call writes the status line, a
    later one is superfluous and ignored by net/http. *)
Definition WriteHeader (code : Z) (w : ResponseWriter) : ResponseWriter :=
  match status w with
  | None => mkRW (header w) (Some code) (body w) (broken w)
  | Some _ => w
  end.

(** [w.Write(data)]: writes the status line 200 first when none was
    written. *)
Definition Write (data : string) (w : ResponseWriter) : ResponseWriter * error :=
  let w := WriteHeader StatusOK w in
  match broken w with
  | Some e => (w, Some e)
  | None => (mkRW (header w) (status w) (body w +:+ data) None, None)
  end.

(** [*http.Request]: what the handlers read of it.  [Body] is the result of
    [ioutil.ReadAll(r.Body)], [Vars] is [mux.Vars(r)]. *)
Record Request : Type := mkRequest {
  Body : result string;
  Vars : gmap string string
}.

(** Reading a Go map of strings: the zero value for a missing key. *)
Definition index (vars : gmap string string) (k : string) : string :=
  default EmptyString (vars !! k).

(** ** encoding/json, as far as the handlers use it *)

(** The values of the fields of the structs that are encoded. *)
Inductive GoValue : Type :=
| VString (s : string)
| VBool (b : bool)
| VInt (z : Z).

(** A struct field as [reflect] shows it to the encoder: its Go name, the
    name its [json] tag gives it, and its value. *)
Record Field : Type := mkField {
  go_name : string;
  json_name : string;
  value : GoValue
}.

(** A field is exported when its Go name starts with an upper-case
    letter; the encoder skips every other field. *)
Definition exported (f : Field) : bool :=
  match go_name f with
  | EmptyString => false
  | String c _ => let n := N_of_ascii c in ((65 <=? n) && (n <=? 90))%N
  end.

Definition hex_digit (n : N) : ascii :=
  ascii_of_N (if (n <? 10)%N then 48 + n else 87 + n).

(** One byte of a string literal: quote and backslash are escaped with a
    backslash, line feed, carriage return and tab have their short forms,
    the other control bytes and the HTML-unsafe bytes are written as
    [\u00XX]. *)
Definition escape_byte (c : ascii) : string :=
  let n := N_of_ascii c in
  if ((n =? 34) || (n =? 92))%N then String "092" (String c EmptyString)
  else if (n =? 10)%N then "\n"
  else if (n =? 13)%N then "\r"
  else if (n =? 9)%N then "\t"
  else if ((n <? 32) || (n =? 60) || (n =? 62) || (n =? 38))%N
       then "\u00" +:+ String (hex_digit (n / 16)) (String (hex_digit (n mod 16)) EmptyString)
  else String c EmptyString.

(** The first [k] bytes of [s] are continuation bytes, [80]..[BF]. *)
Fixpoint continuation_bytes (k : nat) (s : string) : bool :=
  match k, s with
  | O, _ => true
  | S k, String c rest =>
      let n := N_of_ascii c in
      ((128 <=? n) && (n <=? 191))%N && continuation_bytes k rest
  | S _, EmptyString => false
  end.

(** [s] starts with a byte in [lo]..[hi] that [k] continuation bytes
    follow. *)
Definition second_byte_in (lo hi : N) (k : nat) (s : string) : bool :=
  match s with
  | String c rest =>
      let n := N_of_ascii c in
      ((lo <=? n) && (n <=? hi))%N && continuation_bytes k rest
  | EmptyString => false
  end.

(** [utf8.DecodeRuneInString] on the bytes [c :: rest] with [c] outside
    ASCII: the number of bytes of the rune that starts there, or [None]
    where the bytes are not the UTF-8 encoding of a rune. *)
Definition rune_size (c : ascii) (rest : string) : option nat :=
  let n := N_of_ascii c in
  if ((194 <=? n) && (n <=? 223))%N then
    if continuation_bytes 1 rest then Some 2%nat else None
  else if (n =? 224)%N then
    if second_byte_in 160 191 1 rest then Some 3%nat else None
  else if (n =? 237)%N then
    if second_byte_in 128 159 1 rest then Some 3%nat else None
  else if ((225 <=? n) && (n <=? 239))%N then
    if second_byte_in 128 191 1 rest then Some 3%nat else None
  else if (n =? 240)%N then
    if second_byte_in 144 191 2 rest then Some 4%nat else None
  else if (n =? 244)%N then
    if second_byte_in 128 143 2 rest then Some 4%nat else None
  else if ((241 <=? n) && (n <=? 243))%N then
    if second_byte_in 128 191 2 rest then Some 4%nat else None
  else None.

(** [c :: rest] starts with U+2028 or U+2029 ([E2 80 A8], [E2 80 A9]):
    the last hex digit of the rune. *)
Definition line_separator (c : ascii) (rest : string) : option ascii :=
  match rest with
  | String c2 (String c3 _) =>
      let n3 := N_of_ascii c3 in
      if ((N_of_ascii c =? 226) && (N_of_ascii c2 =? 128)
          && ((n3 =? 168) || (n3 =? 169)))%N
      then Some (hex_digit (n3 mod 16))
      else None
  | _ => None
  end.

(** The bytes of a string literal.  An ASCII byte is written by
    [escape_byte]; a byte that does not start a rune is written as
    [\ufffd]; U+2028 and U+2029 are written as [\u2028] and [\u2029];
    every other rune is copied.  [skip] counts the bytes left of the rune
    at hand, which are copied when [keep] holds and dropped otherwise. *)
Fixpoint escape_from (skip : nat) (keep : bool) (s : string) : string :=
  match s with
  | EmptyString => EmptyString
  | String c rest =>
      match skip with
      | S k =>
          if keep then String c (escape_from k keep rest)
          else escape_from k keep rest
      | O =>
          if (N_of_ascii c <? 128)%N then escape_byte c +:+ escape_from 0 true rest
          else
            match rune_size c rest with
            | None => "\ufffd" +:+ escape_from 0 true rest
            | Some size =>
                match line_separator c rest with
                | Some digit =>
                    "\u202" +:+ String digit (escape_from (Nat.pred size) false rest)
                | None => String c (escape_from (Nat.pred size) true rest)
                end
            end
      end
  end.

Definition escape (s : string) : string := escape_from 0 true s.

Definition quoted (s : string) : string :=
  String "034" (escape s) +:+ String "034" EmptyString.

Definition marshal_value (v : GoValue) : string :=
  match v with
  | VString s => quoted s
  | VBool true => "true"
  | VBool false => "false"
  | VInt z => pretty z
  end.

Definition marshal_member (kv : string * string) : string :=
  quoted kv.1 +:+ ":" +:+ kv.2.

Definition marshal_object (members : list (string * string)) : string :=
  "{" +:+ String.concat "," (marshal_member <$> members) +:+ "}".

(** A struct is encoded as the object of its exported fields, in the order
    of their declaration. *)
Definition marshal_struct (fields : list Field) : string :=
  marshal_object
    ((λ f, (json_name f, marshal_value (value f))) <$> filter (λ f, exported f = true) fields).

(** Modelled from the spec: the [json] tags of [Gas] are declared with the
    struct in gas.go, which is not part of this file; the wire names here
    are the column names of the spec.  The Go names are those this file
    uses. *)
Definition Gas_fields (gas : Gas.t) : list Field :=
  [ mkField "Network" "network" (VString (Gas.Network gas));
    mkField "Nickname" "nickname" (VBool (Gas.Nickname gas));
    mkField "Frequency" "frequency" (VInt (Gas.Frequency gas));
    mkField "token" "token" (VString (Gas.token gas)) ].

Definition marshal_Gas (gas : Gas.t) : string :=
  marshal_struct (Gas_fields gas).

(** A map is encoded as an object whose members are sorted by key. *)
Fixpoint insert_sorted (kv : string * string) (l : list (string * string))
    : list (string * string) :=
  match l with
  | [] => [kv]
  | kv' :: rest =>
      if String.leb kv.1 kv'.1 then kv :: l else kv' :: insert_sorted kv rest
  end.

Definition sort_members (l : list (string * string)) : list (string * string) :=
  foldr insert_sorted [] l.

Definition marshal_WatchingGas (m : gmap string Gas.t) : string :=
  marshal_object (sort_members (map_to_list (marshal_Gas <$> m))).

(** [json.NewEncoder(w).Encode(v)], given the encoding of [v]: the encoding
    and a line feed are written to [w]. *)
Definition Encode (encoded : string) (w : ResponseWriter) : ResponseWriter * error :=
  Write (encoded +:+ String "010" EmptyString) w.

(** ** database/sql, as far as [addGas] uses it *)

(** The errors the calls on the store meet in one run of [addGas]:
    [None] where the call succeeds.  [next_err] is the error on which
    [rows.Next] stops: [rows.Next] then returns false and keeps the error
    for [rows.Err], which [addGas] does not call. *)
Record StoreFaults : Type := mkFaults {
  prepare_query_err : error;
  query_err : error;
  next_err : error;
  scan_err : error;
  prepare_exec_err : error;
  exec_err : error;
  last_insert_id_err : error
}.

Definition no_faults : StoreFaults :=
  mkFaults None None None None None None None.

(** [SELECT id FROM gases WHERE network = ? LIMIT 1] *)
Definition select_id (db : gmap positive Row) (network : string) : list Z :=
  take 1 ((λ p, Z.pos p.1) <$>
          filter (λ p : positive * Row, row_network p.2 = network) (map_to_list db)).

(** [for rows.Next() { err = rows.Scan(&existingId) ... }] over the
    selected [rows].  When [rows.Next] fails (the error [next]) it returns
    false, so the loop ends as it does after the last row and
    [existingId] keeps the value it has; the error [scan] is the one
    [rows.Scan] returns. *)
Fixpoint scan_rows (rows : list Z) (next scan : error) (existingId : Z) : result Z :=
  match rows with
  | [] => Ok existingId
  | id :: rest =>
      match next with
      | Some _ => Ok existingId
      | None =>
          match scan with
          | Some e => Err e
          | None => scan_rows rest next scan id
          end
      end
  end.

(** [update gases set token = ?, nickname = ?, network = ?, frequency = ?
    WHERE id = ?] *)
Definition update_row (db : gmap positive Row) (row : Row) (id : Z) : gmap positive Row :=
  match id with
  | Z.pos p => alter (λ _, row) p db
  | _ => db
  end.

(** [INSERT INTO gases(token, nickname, network, frequency) values(?,?,?,?)]:
    the store assigns the new row an id that no row has. *)
Definition insert_row (db : gmap positive Row) (row : Row) : gmap positive Row :=
  <[fresh (dom db) := row]> db.

Definition Gas_row (gas : Gas.t) : Row :=
  mkRow (Gas.token gas) (Gas.Nickname gas) (Gas.Network gas) (Gas.Frequency gas).

(** [logger.Warningf("Unable to <what> gas in db %s: %s", id, err)] *)
Definition warning (what id e : string) : list Event :=
  [Logged LWarning ("Unable to " +:+ what +:+ " gas in db " +:+ id +:+ ": " +:+ e)].

(** The part of [addGas] that talks to the store (from the [SELECT] to the
    end of the function), on the table and with the errors [o] of the
    store's calls: the table afterwards and what was logged. *)
Definition addGas_store (gas : Gas.t) (o : StoreFaults) (db : gmap positive Row)
    : gmap positive Row * list Event :=
  let id := Gas.Network gas in
  match prepare_query_err o with
  | Some e => (db, warning "query" id e)
  | None =>
  match query_err o with
  | Some e => (db, warning "query" id e)
  | None =>
  match scan_rows (select_id db (Gas.Network gas)) (next_err o) (scan_err o) 0 with
  | Err e => (db, warning "query" id e)
  | Ok existingId =>
      if negb (existingId =? 0) then
        (* update entry in db *)
        match prepare_exec_err o with
        | Some e => (db, warning "update" id e)
        | None =>
        match exec_err o with
        | Some e => (db, warning "update" id e)
        | None =>
            let db := update_row db (Gas_row gas) existingId in
            match last_insert_id_err o with
            | Some e => (db, warning "update" id e)
            | None => (db, [Logged LInfo ("Updated gas in db " +:+ id)])
            end
        end
        end
      else
        (* store new entry in db *)
        match prepare_exec_err o with
        | Some e => (db, warning "store" id e)
        | None =>
        match exec_err o with
        | Some e => (db, warning "store" id e)
        | None =>
            let db := insert_row db (Gas_row gas) in
            match last_insert_id_err o with
            | Some e => (db, warning "store" id e)
            | None => (db, [])
            end
        end
        end
  end
  end
  end.

Definition addGas (gas : Gas.t) (o : StoreFaults) (st : State) : State :=
  let st := gasCount_Inc st in
  let id := Gas.Network gas in
  let st := map_store id gas st in
  match DB st with
  | None => st
  | Some db =>
      let '(db, evs) := addGas_store gas o db in
      emit evs (set_DB db st)
  end.

(** ** The handlers *)

Section Handlers.

(** [json.Unmarshal(body, &gasReq)] on a zero [GasRequest]: the request
    it fills in, or its error. *)
Variable json_Unmarshal : string → result GasRequest.t.

(** AddGas adds a new gas to the list of what to watch. *)
Definition AddGas (w : ResponseWriter) (r : Request) (o : StoreFaults) (st : State)
    : ResponseWriter * State :=
  let st := logf LDebug "Got an API request to add a gas" st in
  (* read body *)
  match Body r with
  | Err e => (WriteHeader StatusInternalServerError w, logf LError e st)
  | Ok body =>
  (* unmarshal into struct *)
  match json_Unmarshal body with
  | Err e =>
      (WriteHeader StatusInternalServerError w,
       logf LError ("Unmarshalling: " +:+ e) st)
  | Ok gasReq =>
  (* ensure token is set *)
  if decide (GasRequest.Token gasReq = EmptyString) then
    (WriteHeader StatusBadRequest w, logf LError "Discord token required" st)
  (* ensure network is set *)
  else if decide (GasRequest.Network gasReq = EmptyString) then
    (WriteHeader StatusBadRequest w, logf LError "Network required" st)
  else
  (* check if already existing *)
  match WatchingGas st !! ToUpper (GasRequest.Network gasReq) with
  | Some _ =>
      (WriteHeader StatusConflict w, logf LError "Network already exists" st)
  | None =>
      let '(gas, st) :=
        NewGas (GasRequest.Network gasReq) (GasRequest.Token gasReq)
               (GasRequest.Nickname gasReq) (GasRequest.Frequency gasReq) st in
      let st := addGas gas o st in
      let w := Header_Set "Content-Type" "application/json; charset=UTF-8" w in
      let w := WriteHeader StatusOK w in
      match Encode (marshal_Gas gas) w with
      | (w, Some e) =>
          (WriteHeader StatusBadRequest w,
           logf LError ("Unable to encode gas: " +:+ e) st)
      | (w, None) => (w, st)
      end
  end
  end
  end.

(** DeleteGas removes a gas from the list of what to watch. *)
Definition DeleteGas (w : ResponseWriter) (r : Request) (st : State)
    : ResponseWriter * State :=
  let st := logf LDebug "Got an API request to delete a gas" st in
  let vars := Vars r in
  let id := ToUpper (index vars "id") in
  match WatchingGas st !! id with
  | None =>
      (WriteHeader StatusNotFound w, logf LError ("No gas found: " +:+ id) st)
  | Some gas =>
      (* send shutdown sign *)
      let st := Shutdown gas st in
      let st := gasCount_Dec st in
      (* remove from cache *)
      let st := map_delete id st in
      let st := logf LInfo ("Deleted gas " +:+ id) st in
      (WriteHeader StatusNoContent w, st)
  end.

(** GetGas returns a list of what the manager is watching. *)
Definition GetGas (w : ResponseWriter) (r : Request) (st : State)
    : ResponseWriter * State :=
  let w := Header_Set "Content-Type" "application/json; charset=UTF-8" w in
  let w := WriteHeader StatusOK w in
  match Encode (marshal_WatchingGas (WatchingGas st)) w with
  | (w, Some e) => (w, logf LError ("Serving request: " +:+ e) st)
  | (w, None) => (w, st)
  end.

(** One request served by the manager, on a new [ResponseWriter]. *)
Inductive Call : Type :=
| CallAdd (broken : error) (r : Request) (o : StoreFaults)
| CallDelete (broken : error) (r : Request)
| CallGet (broken : error) (r : Request).

Definition serve (c : Call) (st : State) : ResponseWriter * State :=
  match c with
  | CallAdd broken r o => AddGas (newResponseWriter broken) r o st
  | CallDelete broken r => DeleteGas (newResponseWriter broken) r st
  | CallGet broken r => GetGas (newResponseWriter broken) r st
  end.

(** The requests of a run are served one after the other (the lock
    orders them): the responses, in order, and the last state. *)
Fixpoint run (cs : list Call) (st : State) : list ResponseWriter * State :=
  match cs with
  | [] => ([], st)
  | c :: rest =>
      let '(w, st) := serve c st in
      let '(ws, st) := run rest st in
      (w :: ws, st)
  end.

End Handlers.

(** The manager at process start: nothing is watched; [db] is the store
    handle it was given, [None] when no store is configured. *)
Definition initial (db : option (gmap positive Row)) : State :=
  mkState ∅ db 0 0%nat [].

(** A decoder given by the finite table of the bodies it accepts; every
    other body is a syntax error. *)
Definition table_Unmarshal (tbl : list (string * GasRequest.t)) (body : string)
    : result GasRequest.t :=
  match list_find (λ p : string * GasRequest.t, p.1 = body) tbl with
  | Some (_, (_, req)) => Ok req
  | None => Err "invalid character"
  end.

(** ** Sample requests *)

(** Requests as the examples below decode them: the same network in two
    casings and with two tokens, and one without a token. *)
Definition eth_abc : GasRequest.t := GasRequest.mk "eth" "abc" true 0.
Definition eth_xyz : GasRequest.t := GasRequest.mk "eth" "xyz" true 0.
Definition ETH_abc : GasRequest.t := GasRequest.mk "ETH" "abc" false 30.
Definition btc_no_token : GasRequest.t := GasRequest.mk "btc" EmptyString false 30.

Definition sample_Unmarshal : string → result GasRequest.t :=
  table_Unmarshal
    [ ("{network:eth,discord_bot_token:abc,set_nickname:true}", eth_abc);
      ("{network:eth,discord_bot_token:xyz,set_nickname:true}", eth_xyz);
      ("{network:ETH,discord_bot_token:abc,frequency:30}", ETH_abc);
      ("{network:btc,frequency:30}", btc_no_token) ].

Definition post (body : string) : Request := mkRequest (Ok body) ∅.

Definition post_eth_abc : Request :=
  post "{network:eth,discord_bot_token:abc,set_nickname:true}".
Definition post_eth_xyz : Request :=
  post "{network:eth,discord_bot_token:xyz,set_nickname:true}".
Definition post_ETH_abc : Request :=
  post "{network:ETH,discord_bot_token:abc,frequency:30}".
Definition post_btc_no_token : Request := post "{network:btc,frequency:30}".
Definition post_truncated : Request := post "{network:".

(** The request [DELETE /gas/{id}] and the request [GET /gas]. *)
Definition delete_id (id : string) : Request :=
  mkRequest (Ok EmptyString) {["id" := id]}.
Definition get : Request := mkRequest (Ok EmptyString) ∅.

(** The manager once it watches ETH, without a store and with one. *)
Definition watching_eth : State :=
  (AddGas sample_Unmarshal (newResponseWriter None) post_eth_abc no_faults
          (initial None)).2.

Definition watching_eth_stored : State :=
  (AddGas sample_Unmarshal (newResponseWriter None) post_eth_abc no_faults
          (initial (Some ∅))).2.

(** A store whose every [Exec] fails. *)
Definition exec_fails : StoreFaults :=
  mkFaults None None None None None (Some "database is locked") None.

(** A store whose [rows.Next] fails. *)
Definition next_fails : StoreFaults :=
  mkFaults None None (Some "database is locked") None None None None.

(** A table with one row for ETH. *)
Definition eth_row_table : gmap positive Row :=
  {[1%positive := mkRow "old" false "ETH" 60]}.

(** * The vocabulary of the properties *)

(** The events that only write to the log. *)
Definition is_log (ev : Event) : Prop :=
  match ev with Logged _ _ => True | _ => False end.

(** [st'] differs from [st] by log lines only: the map, its entries, the
    gauge, the store and the watchers are the same. *)
Definition no_mutation (st st' : State) : Prop :=
  WatchingGas st' = WatchingGas st ∧
  DB st' = DB st ∧
  gasCount st' = gasCount st ∧
  watchers st' = watchers st ∧
  ∃ evs, trace st' = trace st ++ evs ∧ Forall is_log evs.

(** The entry [AddGas] registers for the request [req] in the state [st]. *)
Definition entry_of (req : GasRequest.t) (st : State) : Gas.t :=
  (NewGas (GasRequest.Network req) (GasRequest.Token req)
          (GasRequest.Nickname req) (GasRequest.Frequency req) st).1.

(** The state in which [AddGas] calls [addGas] for the request [req]. *)
Definition started (req : GasRequest.t) (st : State) : State :=
  (NewGas (GasRequest.Network req) (GasRequest.Token req)
          (GasRequest.Nickname req) (GasRequest.Frequency req)
          (logf LDebug "Got an API request to add a gas" st)).2.

(** A request that passes decoding, validation and the uniqueness check. *)
Definition accepted (json_Unmarshal : string → result GasRequest.t)
    (r : Request) (req : GasRequest.t) (st : State) : Prop :=
  (∃ body, Body r = Ok body ∧ json_Unmarshal body = Ok req) ∧
  GasRequest.Token req ≠ EmptyString ∧
  GasRequest.Network req ≠ EmptyString ∧
  WatchingGas st !! ToUpper (GasRequest.Network req) = None.

(** Every key of the map is in upper case and is the [Network] of its
    entry. *)
Definition keys_normalized (st : State) : Prop :=
  ∀ k gas, WatchingGas st !! k = Some gas → ToUpper k = k ∧ Gas.Network gas = k.

(** The table holds at most one row whose [network] is [network]. *)
Definition at_most_one_row (network : string) (db : gmap positive Row) : Prop :=
  ∀ i j ri rj,
    db !! i = Some ri → db !! j = Some rj →
    row_network ri = network → row_network rj = network → i = j.

(** The entry with its token blanked. *)
Definition redact (gas : Gas.t) : Gas.t :=
  Gas.mk (Gas.Network gas) (Gas.Nickname gas) (Gas.Frequency gas) EmptyString
         (Gas.watcher gas).

(** Two decoded requests that differ at most in the token they supply. *)
Definition same_but_token (q1 q2 : GasRequest.t) : Prop :=
  GasRequest.Network q1 = GasRequest.Network q2 ∧
  GasRequest.Nickname q1 = GasRequest.Nickname q2 ∧
  GasRequest.Frequency q1 = GasRequest.Frequency q2 ∧
  (GasRequest.Token q1 = EmptyString ↔ GasRequest.Token q2 = EmptyString).

(** Two states that differ at most in the tokens of the entries (and in
    the store, the gauge and the log, which no response reads). *)
Definition same_but_tokens (st1 st2 : State) : Prop :=
  redact <$> WatchingGas st1 = redact <$> WatchingGas st2 ∧
  watchers st1 = watchers st2.

(** The calls of two runs that differ only in the token supplied at
    creation: the same call, or two [AddGas] calls whose bodies decode to
    requests that differ at most in a token. *)
Inductive call_variant (json_Unmarshal : string → result GasRequest.t)
    : Call → Call → Prop :=
| variant_same (c : Call) : call_variant json_Unmarshal c c
| variant_token (broken : error) (r1 r2 : Request) (o : StoreFaults)
    (body1 body2 : string) (q1 q2 : GasRequest.t) :
    Body r1 = Ok body1 → json_Unmarshal body1 = Ok q1 →
    Body r2 = Ok body2 → json_Unmarshal body2 = Ok q2 →
    same_but_token q1 q2 →
    call_variant json_Unmarshal (CallAdd broken r1 o) (CallAdd broken r2 o).

(** The row with its token blanked. *)
Definition blank_token (row : Row) : Row :=
  mkRow EmptyString (row_nickname row) (row_network row) (row_frequency row).

(** Two tables that differ at most in the tokens of their rows. *)
Definition same_rows_but_tokens (db1 db2 : gmap positive Row) : Prop :=
  blank_token <$> db1 = blank_token <$> db2.

(** Two states that differ at most in the tokens of the entries and of the
    rows of the store: the gauge, the watchers and the trace are the
    same. *)
Definition same_but_stored_tokens (st1 st2 : State) : Prop :=
  same_but_tokens st1 st2 ∧
  match DB st1, DB st2 with
  | Some db1, Some db2 => same_rows_but_tokens db1 db2
  | None, None => True
  | _, _ => False
  end ∧
  gasCount st1 = gasCount st2 ∧
  trace st1 = trace st2.

(** The events that start or stop a watcher. *)
Definition touches_watcher (ev : Event) : Prop :=
  match ev with
  | WatcherStarted _ | WatcherShutdown _ => True
  | _ => False
  end.

(** The gauge counts the entries of the map. *)
Definition gauge_counts_entries (st : State) : Prop :=
  gasCount st = Z.of_nat (size (WatchingGas st)).

(** * Properties *)

(** ** Upper-casing *)

Lemma upper_byte_idem (c : ascii) : upper_byte (upper_byte c) = upper_byte c.
Proof. by destruct c as [[] [] [] [] [] [] [] []]. Qed.

Lemma ToUpper_idem (s : string) : ToUpper (ToUpper s) = ToUpper s.
Proof.
  induction s as [|c s IH]; simpl; [done|].
  by rewrite upper_byte_idem, IH.
Qed.

(** ** What a handler leaves alone *)

Lemma no_mutation_logf2 (l1 l2 : Level) (m1 m2 : string) (st : State) :
  no_mutation st (logf l2 m2 (logf l1 m1 st)).
Proof.
  repeat split; simpl.
  exists [Logged l1 m1; Logged l2 m2].
  rewrite <- app_assoc. split; [done|].
  repeat constructor.
Qed.

(** ** [addGas] *)

Lemma addGas_WatchingGas (gas : Gas.t) (o : StoreFaults) (st : State) :
  WatchingGas (addGas gas o st) = <[Gas.Network gas := gas]> (WatchingGas st).
Proof.
  unfold addGas. simpl. destruct (DB st); [|done].
  by destruct (addGas_store gas o _).
Qed.

Lemma addGas_gasCount (gas : Gas.t) (o : StoreFaults) (st : State) :
  gasCount (addGas gas o st) = gasCount st + 1.
Proof.
  unfold addGas. simpl. destruct (DB st); [|done].
  by destruct (addGas_store gas o _).
Qed.

Lemma addGas_watchers (gas : Gas.t) (o : StoreFaults) (st : State) :
  watchers (addGas gas o st) = watchers st.
Proof.
  unfold addGas. simpl. destruct (DB st); [|done].
  by destruct (addGas_store gas o _).
Qed.

Lemma addGas_no_store (gas : Gas.t) (o : StoreFaults) (st : State) :
  DB st = None →
  addGas gas o st = map_store (Gas.Network gas) gas (gasCount_Inc st).
Proof. intros H. unfold addGas. simpl. by rewrite H. Qed.

Section HandlerLemmas.

Variable json_Unmarshal : string → result GasRequest.t.

(** What [AddGas] returns for an accepted request. *)
Lemma AddGas_accepted_eq (broken : error) (r : Request) (o : StoreFaults)
    (st : State) (req : GasRequest.t) :
  accepted json_Unmarshal r req st →
  AddGas json_Unmarshal (newResponseWriter broken) r o st =
    let gas := entry_of req st in
    let st2 := addGas gas o (started req st) in
    let hdr : gmap string string :=
      {["Content-Type" := "application/json; charset=UTF-8"]} in
    match broken with
    | Some e =>
        (mkRW hdr (Some StatusOK) EmptyString (Some e),
         logf LError ("Unable to encode gas: " +:+ e) st2)
    | None =>
        (mkRW hdr (Some StatusOK)
              (marshal_Gas gas +:+ String "010" EmptyString) None, st2)
    end.
Proof.
  intros [(body & Hb & Hd) (Ht & Hn & Hl)].
  unfold AddGas. rewrite Hb, Hd.
  destruct (decide _) as [|_]; [done|].
  destruct (decide _) as [|_]; [done|].
  cbn [WatchingGas logf]. rewrite Hl.
  by destruct broken.
Qed.

(** The state and the status line after an accepted request. *)
Lemma AddGas_accepted (broken : error) (r : Request) (o : StoreFaults)
    (st : State) (req : GasRequest.t) :
  accepted json_Unmarshal r req st →
  let gas := entry_of req st in
  let res := AddGas json_Unmarshal (newResponseWriter broken) r o st in
  status res.1 = Some StatusOK ∧
  WatchingGas res.2 = <[ToUpper (GasRequest.Network req) := gas]> (WatchingGas st) ∧
  gasCount res.2 = gasCount st + 1 ∧
  watchers res.2 = S (watchers st) ∧
  body res.1 = match broken with
               | None => marshal_Gas gas +:+ String "010" EmptyString
               | Some _ => EmptyString
               end.
Proof.
  intros Hacc. cbn zeta. rewrite (AddGas_accepted_eq broken r o st req Hacc).
  destruct broken as [e|]; cbn [fst snd status body WatchingGas gasCount watchers logf];
    rewrite addGas_WatchingGas, addGas_gasCount, addGas_watchers; done.
Qed.

(** Only an accepted request is answered 200. *)
Lemma AddGas_StatusOK_inv (broken : error) (r : Request) (o : StoreFaults)
    (st : State) :
  status (AddGas json_Unmarshal (newResponseWriter broken) r o st).1 = Some StatusOK →
  ∃ req, accepted json_Unmarshal r req st.
Proof.
  unfold AddGas, accepted.
  destruct (Body r) as [body|e] eqn:Hb; [|done].
  destruct (json_Unmarshal body) as [req|e] eqn:Hd; [|done].
  destruct (decide _) as [|Ht]; [done|].
  destruct (decide _) as [|Hn]; [done|].
  destruct (WatchingGas _ !! _) eqn:Hl; [done|].
  intros _. exists req. simpl in Hl. eauto 10.
Qed.

(** A request whose upper-cased network is watched already. *)
Lemma AddGas_conflict (broken : error) (r : Request) (o : StoreFaults)
    (st : State) (body : string) (req : GasRequest.t) :
  Body r = Ok body →
  json_Unmarshal body = Ok req →
  GasRequest.Token req ≠ EmptyString →
  GasRequest.Network req ≠ EmptyString →
  is_Some (WatchingGas st !! ToUpper (GasRequest.Network req)) →
  AddGas json_Unmarshal (newResponseWriter broken) r o st =
    (WriteHeader StatusConflict (newResponseWriter broken),
     logf LError "Network already exists"
          (logf LDebug "Got an API request to add a gas" st)).
Proof.
  intros Hb Hd Ht Hn [gas Hl]. unfold AddGas. rewrite Hb, Hd.
  destruct (decide _) as [|_]; [done|].
  destruct (decide _) as [|_]; [done|].
  cbn [WatchingGas logf]. by rewrite Hl.
Qed.

End HandlerLemmas.

(** As long as [rows.Next] does not fail, every run of the store's part
    of [addGas] either goes as the run without errors, or logs one warning
    and leaves the table as it was or as the run without errors leaves
    it. *)
Lemma addGas_store_cases (gas : Gas.t) (o : StoreFaults) (db : gmap positive Row) :
  next_err o = None →
  addGas_store gas o db = addGas_store gas no_faults db ∨
  ∃ msg, (addGas_store gas o db).2 = [Logged LWarning msg] ∧
         ((addGas_store gas o db).1 = db ∨
          (addGas_store gas o db).1 = (addGas_store gas no_faults db).1).
Proof.
  unfold addGas_store, warning.
  destruct o as [[e1|] [e2|] en [e3|] [e4|] [e5|] [e6|]]; cbn; intros ->;
    try (right; eexists; split; [done|by left]);
    destruct (select_id db (Gas.Network gas)) as [|i rows]; cbn;
    try (right; eexists; split; [done|by left]);
    try destruct (scan_rows rows None None i); cbn;
    try destruct (negb _); cbn;
    try (by left);
    try (right; eexists; split; [done|by left]);
    try (right; eexists; split; [done|by right]).
Qed.

(** When [rows.Next] fails the loop leaves [existingId] at 0, whatever the
    table holds. *)
Lemma scan_rows_next_fails (rows : list Z) (e : string) (scan : error) :
  scan_rows rows (Some e) scan 0 = Ok 0.
Proof. by destruct rows. Qed.

(** So, when [rows.Next] fails and the calls around it succeed, the
    entry's row is inserted under a new id without a look at the table,
    and the only line that can be logged is the one of [LastInsertId]. *)
Lemma addGas_store_next_fails (gas : Gas.t) (o : StoreFaults)
    (db : gmap positive Row) (e : string) :
  next_err o = Some e →
  prepare_query_err o = None → query_err o = None →
  prepare_exec_err o = None → exec_err o = None →
  (addGas_store gas o db).1 = insert_row db (Gas_row gas) ∧
  (last_insert_id_err o = None → (addGas_store gas o db).2 = []).
Proof.
  unfold addGas_store. intros -> -> -> -> ->.
  rewrite scan_rows_next_fails. cbn.
  by destruct (last_insert_id_err o).
Qed.

(** The table after the store's part of [addGas], whatever the errors: as
    it was, as the run without errors leaves it, or with the entry's row
    inserted under a new id. *)
Lemma addGas_store_table (gas : Gas.t) (o : StoreFaults) (db : gmap positive Row) :
  (addGas_store gas o db).1 = db ∨
  (addGas_store gas o db).1 = (addGas_store gas no_faults db).1 ∨
  (addGas_store gas o db).1 = insert_row db (Gas_row gas).
Proof.
  destruct (next_err o) as [e|] eqn:Hnext.
  - unfold addGas_store. rewrite Hnext, scan_rows_next_fails. cbn.
    destruct (prepare_query_err o); [by left|].
    destruct (query_err o); [by left|].
    destruct (prepare_exec_err o); [by left|].
    destruct (exec_err o); [by left|].
    right. right. by destruct (last_insert_id_err o).
  - destruct (addGas_store_cases gas o db Hnext) as [->|(msg & _ & [->| ->])];
      auto.
Qed.

Lemma addGas_trace (gas : Gas.t) (o : StoreFaults) (st : State) (db : gmap positive Row) :
  DB st = Some db →
  trace (addGas gas o st) =
    trace st ++ [GaugeInc; MapStore (Gas.Network gas)] ++ (addGas_store gas o db).2.
Proof.
  intros H. unfold addGas. cbn. rewrite H.
  destruct (addGas_store gas o db) as [db' evs]. cbn.
  by rewrite <- !app_assoc.
Qed.

Lemma addGas_DB (gas : Gas.t) (o : StoreFaults) (st : State) (db : gmap positive Row) :
  DB st = Some db →
  DB (addGas gas o st) = Some (addGas_store gas o db).1.
Proof.
  intros H. unfold addGas. cbn. rewrite H.
  by destruct (addGas_store gas o db) as [db' evs].
Qed.


(** ** The handlers, claim by claim *)

Section HandlerClaims.

Variable json_Unmarshal : string → result GasRequest.t.

(** C1.  [AddGas] looks the key up in upper case and the entry is stored
    under the upper-cased key: whenever a request is answered 200, its
    key [Network] (in any casing) was looked up as [ToUpper Network], the
    new entry is in the map under [ToUpper Network], a [DeleteGas] that
    follows with any path id of the same upper-casing finds it and answers
    204, and an [AddGas] that follows with the key in any casing is
    answered 409. *)
Theorem AddGas_then_DeleteGas_any_casing (broken : error) (r : Request)
    (o : StoreFaults) (st : State) :
  let res := AddGas json_Unmarshal (newResponseWriter broken) r o st in
  status res.1 = Some StatusOK →
  ∃ body req,
    Body r = Ok body ∧ json_Unmarshal body = Ok req ∧
    WatchingGas st !! ToUpper (GasRequest.Network req) = None ∧
    WatchingGas res.2 !! ToUpper (GasRequest.Network req) = Some (entry_of req st) ∧
    (∀ (broken' : error) (r' : Request),
       ToUpper (index (Vars r') "id") = ToUpper (GasRequest.Network req) →
       status (DeleteGas (newResponseWriter broken') r' res.2).1
         = Some StatusNoContent) ∧
    (∀ (broken' : error) (r' : Request) (o' : StoreFaults) (body' : string)
       (req' : GasRequest.t),
       Body r' = Ok body' → json_Unmarshal body' = Ok req' →
       GasRequest.Token req' ≠ EmptyString →
       GasRequest.Network req' ≠ EmptyString →
       ToUpper (GasRequest.Network req') = ToUpper (GasRequest.Network req) →
       status (AddGas json_Unmarshal (newResponseWriter broken') r' o' res.2).1
         = Some StatusConflict).
Proof.
  intros res Hok.
  destruct (AddGas_StatusOK_inv _ _ _ _ _ Hok) as [req Hacc].
  destruct (AddGas_accepted json_Unmarshal broken r o st req Hacc)
    as (_ & Hmap & _).
  fold res in Hmap.
  destruct Hacc as [(body & Hb & Hd) (_ & _ & Hl)].
  exists body, req.
  split; [done|]. split; [done|]. split; [done|].
  split; [rewrite Hmap; apply lookup_insert_eq|].
  split.
  - intros broken' r' Hid. unfold DeleteGas. cbn zeta. cbn [WatchingGas logf].
    by rewrite Hid, Hmap, lookup_insert_eq.
  - intros broken' r' o' body' req' Hb' Hd' Ht' Hn' Hkey.
    rewrite (AddGas_conflict json_Unmarshal broken' r' o' res.2 body' req');
      try done.
    rewrite Hkey, Hmap, lookup_insert_eq. by eexists.
Qed.

(** C2.  A request with an empty token or an empty network is answered
    400, and one whose upper-cased network is already watched is answered
    409; either way the map, its entries, the gauge, the store and the
    watchers are what they were: only log lines were written. *)
Theorem AddGas_rejects_before_mutation (broken : error) (r : Request)
    (o : StoreFaults) (st : State) (body : string) (req : GasRequest.t) :
  Body r = Ok body →
  json_Unmarshal body = Ok req →
  let res := AddGas json_Unmarshal (newResponseWriter broken) r o st in
  (GasRequest.Token req = EmptyString ∨ GasRequest.Network req = EmptyString →
   status res.1 = Some StatusBadRequest ∧ no_mutation st res.2) ∧
  (GasRequest.Token req ≠ EmptyString →
   GasRequest.Network req ≠ EmptyString →
   is_Some (WatchingGas st !! ToUpper (GasRequest.Network req)) →
   status res.1 = Some StatusConflict ∧ no_mutation st res.2 ∧
   ∀ k, WatchingGas res.2 !! k = WatchingGas st !! k).
Proof.
  intros Hb Hd res. subst res. unfold AddGas. rewrite Hb, Hd. split.
  - intros Hempty.
    destruct (decide _) as [|Ht]; [split; [done|apply no_mutation_logf2]|].
    destruct (decide _) as [|Hn]; [split; [done|apply no_mutation_logf2]|].
    by destruct Hempty.
  - intros Ht Hn [gas Hl].
    destruct (decide _) as [|_]; [done|].
    destruct (decide _) as [|_]; [done|].
    simpl. rewrite Hl.
    split; [done|]. split; [apply no_mutation_logf2|done].
Qed.

(** C3 (amended).  A request whose body [json.Unmarshal] rejects is
    answered 500, not 400; nothing but log lines is written. *)
Theorem AddGas_malformed_body (broken : error) (r : Request) (o : StoreFaults)
    (st : State) (body e : string) :
  Body r = Ok body →
  json_Unmarshal body = Err e →
  let res := AddGas json_Unmarshal (newResponseWriter broken) r o st in
  status res.1 = Some StatusInternalServerError ∧
  no_mutation st res.2.
Proof.
  intros Hb Hd res. subst res. unfold AddGas. rewrite Hb, Hd.
  split; [done|apply no_mutation_logf2].
Qed.

(** C5.  [DeleteGas] of a key that is in the map: the watcher of the
    entry is signalled to stop, then the gauge is decremented by one, then
    the entry is removed from the map, in this order; the answer is 204;
    the key is no longer in the map, which is what [GetGas] then lists;
    the same [DeleteGas] again is answered 404 and changes nothing. *)
Theorem DeleteGas_present (broken : error) (r : Request) (st : State) (gas : Gas.t) :
  let id := ToUpper (index (Vars r) "id") in
  WatchingGas st !! id = Some gas →
  let res := DeleteGas (newResponseWriter broken) r st in
  status res.1 = Some StatusNoContent ∧
  trace res.2 =
    trace st ++ [Logged LDebug "Got an API request to delete a gas";
                 WatcherShutdown (Gas.watcher gas); GaugeDec; MapDelete id;
                 Logged LInfo ("Deleted gas " +:+ id)] ∧
  gasCount res.2 = gasCount st - 1 ∧
  WatchingGas res.2 = delete id (WatchingGas st) ∧
  WatchingGas res.2 !! id = None ∧
  (∀ r', body (GetGas (newResponseWriter None) r' res.2).1 =
         marshal_WatchingGas (delete id (WatchingGas st)) +:+ String "010" EmptyString) ∧
  ∀ broken',
    let res' := DeleteGas (newResponseWriter broken') r res.2 in
    status res'.1 = Some StatusNotFound ∧ no_mutation res.2 res'.2.
Proof.
  intros id Hl res.
  assert (Hres : res =
    (WriteHeader StatusNoContent (newResponseWriter broken),
     logf LInfo ("Deleted gas " +:+ id)
       (map_delete id (gasCount_Dec (Shutdown gas
         (logf LDebug "Got an API request to delete a gas" st)))))).
  { subst res. unfold DeleteGas. cbn zeta. fold id.
    cbn [WatchingGas logf]. by rewrite Hl. }
  rewrite Hres. cbn [fst snd].
  split; [done|].
  split; [cbn; by rewrite <- !app_assoc|].
  split; [done|]. split; [done|].
  split; [cbn; apply lookup_delete_eq|].
  split; [done|].
  intros broken'. unfold DeleteGas. cbn zeta. fold id.
  cbn [WatchingGas logf map_delete]. rewrite lookup_delete_eq.
  split; [done|apply no_mutation_logf2].
Qed.

(** X18.  A request that passes decoding, validation and the uniqueness
    check is answered 200 and its entry is in the map, and so in what
    [GetGas] lists, with the gauge incremented, whatever the store does,
    a failing [rows.Next] included: without a store the store's calls are
    not made at all, and with a store the table is what the store's part
    of [addGas] makes of it.  As long as [rows.Next] does not fail, every
    run that departs from the run without errors logs a warning. *)
Theorem AddGas_ok_whatever_the_store (broken : error) (r : Request)
    (o : StoreFaults) (st : State) (req : GasRequest.t) :
  accepted json_Unmarshal r req st →
  let gas := entry_of req st in
  let key := ToUpper (GasRequest.Network req) in
  let res := AddGas json_Unmarshal (newResponseWriter broken) r o st in
  status res.1 = Some StatusOK ∧
  WatchingGas res.2 = <[key := gas]> (WatchingGas st) ∧
  WatchingGas res.2 !! key = Some gas ∧
  gasCount res.2 = gasCount st + 1 ∧
  (∀ r', body (GetGas (newResponseWriter None) r' res.2).1 =
         marshal_WatchingGas (<[key := gas]> (WatchingGas st)) +:+ String "010" EmptyString) ∧
  (DB st = None →
   DB res.2 = None ∧
   res = AddGas json_Unmarshal (newResponseWriter broken) r no_faults st) ∧
  (∀ db, DB st = Some db →
   DB res.2 = Some (addGas_store gas o db).1 ∧
   (next_err o = None →
    addGas_store gas o db = addGas_store gas no_faults db ∨
    ∃ msg, (addGas_store gas o db).2 = [Logged LWarning msg] ∧
           Logged LWarning msg ∈ trace res.2)).
Proof.
  intros Hacc gas key res.
  destruct (AddGas_accepted json_Unmarshal broken r o st req Hacc)
    as (Hst & Hmap & Hcnt & _).
  fold res gas key in Hst, Hmap, Hcnt.
  split; [done|]. split; [done|].
  split; [rewrite Hmap; apply lookup_insert_eq|].
  split; [done|].
  split; [intros r'; unfold GetGas; cbn; by rewrite Hmap|].
  subst res. rewrite (AddGas_accepted_eq json_Unmarshal broken r o st req Hacc).
  rewrite (AddGas_accepted_eq json_Unmarshal broken r no_faults st req Hacc).
  cbn zeta. fold gas.
  split.
  - intros Hdb.
    rewrite !(addGas_no_store gas _ (started req st)) by done.
    split; [|done]. by destruct broken.
  - intros db Hdb.
    assert (Hdb1 : DB (started req st) = Some db) by done.
    split; [destruct broken; cbn [snd DB logf];
            by rewrite (addGas_DB gas o (started req st) db)|].
    intros Hnext.
    destruct (addGas_store_cases gas o db Hnext) as [|(msg & Hmsg & _)];
      [by left|].
    right. exists msg. split; [done|].
    assert (Hin : Logged LWarning msg ∈ trace (addGas gas o (started req st))).
    { rewrite (addGas_trace gas o _ db Hdb1), Hmsg.
      rewrite !elem_of_app. right. right. by apply list_elem_of_singleton. }
    destruct broken; cbn [snd trace logf]; [|done].
    rewrite elem_of_app. by left.
Qed.

(** C8.  The frequency of an accepted request goes into the entry as it
    is: when it is unset or zero (the decoder leaves the field at its zero
    value; the [default:"60"] tag of [GasRequest] is not read by
    [json.Unmarshal]), [AddGas] passes 0 to [NewGas], and the entry that
    is registered and returned has frequency 0, not 60. *)
Theorem AddGas_keeps_zero_frequency (broken : error) (r : Request)
    (o : StoreFaults) (st : State) (req : GasRequest.t) :
  accepted json_Unmarshal r req st →
  GasRequest.Frequency req = 0 →
  let res := AddGas json_Unmarshal (newResponseWriter broken) r o st in
  status res.1 = Some StatusOK ∧
  ∃ gas,
    WatchingGas res.2 !! ToUpper (GasRequest.Network req) = Some gas ∧
    Gas.Frequency gas = 0 ∧
    Gas.Frequency gas ≠ 60 ∧
    (broken = None →
     body res.1 = marshal_Gas gas +:+ String "010" EmptyString).
Proof.
  intros Hacc Hz res.
  destruct (AddGas_accepted json_Unmarshal broken r o st req Hacc)
    as (Hst & Hmap & _ & _ & Hbody).
  fold res in Hst, Hmap, Hbody. split; [done|].
  assert (Hf : Gas.Frequency (entry_of req st) = 0) by exact Hz.
  exists (entry_of req st). split; [rewrite Hmap; apply lookup_insert_eq|].
  split; [exact Hf|]. split; [by rewrite Hf|].
  intros ->. exact Hbody.
Qed.

(** C10.  When the response of an accepted request cannot be written
    (every write on the connection fails with [e]), the encoding error is
    logged and nothing is undone: the entry is in the map, the gauge is
    one higher, and the same request again, whatever the connection and
    the store do then, is answered 409. *)
Theorem AddGas_encode_failure_keeps_entry (e : string) (r : Request)
    (o : StoreFaults) (st : State) (req : GasRequest.t) :
  accepted json_Unmarshal r req st →
  let res := AddGas json_Unmarshal (newResponseWriter (Some e)) r o st in
  Logged LError ("Unable to encode gas: " +:+ e) ∈ trace res.2 ∧
  WatchingGas res.2 !! ToUpper (GasRequest.Network req) = Some (entry_of req st) ∧
  gasCount res.2 = gasCount st + 1 ∧
  ∀ (broken' : error) (o' : StoreFaults),
    let res' := AddGas json_Unmarshal (newResponseWriter broken') r o' res.2 in
    status res'.1 = Some StatusConflict ∧ no_mutation res.2 res'.2.
Proof.
  intros Hacc res.
  destruct (AddGas_accepted json_Unmarshal (Some e) r o st req Hacc)
    as (_ & Hmap & Hcnt & _).
  fold res in Hmap, Hcnt.
  assert (Hin : WatchingGas res.2 !! ToUpper (GasRequest.Network req)
                = Some (entry_of req st)).
  { rewrite Hmap. apply lookup_insert_eq. }
  split.
  { subst res. rewrite (AddGas_accepted_eq json_Unmarshal _ r o st req Hacc).
    cbn [snd trace logf]. rewrite elem_of_app. right.
    by apply list_elem_of_singleton. }
  split; [done|]. split; [done|].
  intros broken' o' res'.
  destruct Hacc as [(body & Hb & Hd) (Ht & Hn & _)].
  subst res'.
  rewrite (AddGas_conflict json_Unmarshal broken' r o' res.2 body req)
    by (done || by eexists).
  split; [done|apply no_mutation_logf2].
Qed.

End HandlerClaims.

(** ** The keys of the map *)

Section Runs.

Variable json_Unmarshal : string → result GasRequest.t.

Lemma AddGas_WatchingGas_cases (w : ResponseWriter) (r : Request)
    (o : StoreFaults) (st : State) :
  WatchingGas (AddGas json_Unmarshal w r o st).2 = WatchingGas st ∨
  ∃ req, WatchingGas (AddGas json_Unmarshal w r o st).2 =
         <[ToUpper (GasRequest.Network req) := entry_of req st]> (WatchingGas st).
Proof.
  unfold AddGas.
  destruct (Body r) as [body|e]; [|by left].
  destruct (json_Unmarshal body) as [req|e]; [|by left].
  destruct (decide _); [by left|].
  destruct (decide _); [by left|].
  destruct (WatchingGas _ !! _); [by left|].
  right. exists req. cbn [NewGas].
  destruct (Encode _ _) as [w' [e|]]; cbn [snd WatchingGas logf];
    by rewrite addGas_WatchingGas.
Qed.

Lemma DeleteGas_WatchingGas_cases (w : ResponseWriter) (r : Request) (st : State) :
  WatchingGas (DeleteGas w r st).2 = WatchingGas st ∨
  WatchingGas (DeleteGas w r st).2 =
    delete (ToUpper (index (Vars r) "id")) (WatchingGas st).
Proof.
  unfold DeleteGas. cbn zeta.
  destruct (WatchingGas _ !! _); [by right|by left].
Qed.

Lemma GetGas_WatchingGas (w : ResponseWriter) (r : Request) (st : State) :
  WatchingGas (GetGas w r st).2 = WatchingGas st.
Proof. unfold GetGas. by destruct (Encode _ _) as [w' [e|]]. Qed.

Lemma serve_keys_normalized (c : Call) (st : State) :
  keys_normalized st → keys_normalized (serve json_Unmarshal c st).2.
Proof.
  intros Hinv k gas. destruct c as [b r o|b r|b r]; cbn [serve].
  - destruct (AddGas_WatchingGas_cases (newResponseWriter b) r o st)
      as [->|[req ->]]; [apply Hinv|].
    rewrite lookup_insert. case_decide as Hk.
    + intros [= <-]. subst k. split; [apply ToUpper_idem|done].
    + apply Hinv.
  - destruct (DeleteGas_WatchingGas_cases (newResponseWriter b) r st)
      as [->| ->]; [apply Hinv|].
    rewrite lookup_delete. case_decide; [done|apply Hinv].
  - rewrite GetGas_WatchingGas. apply Hinv.
Qed.

Lemma run_cons (c : Call) (cs : list Call) (st : State) :
  run json_Unmarshal (c :: cs) st =
    ((serve json_Unmarshal c st).1 :: (run json_Unmarshal cs (serve json_Unmarshal c st).2).1,
     (run json_Unmarshal cs (serve json_Unmarshal c st).2).2).
Proof.
  cbn [run]. destruct (serve json_Unmarshal c st) as [w st1].
  cbn [fst snd]. by destruct (run json_Unmarshal cs st1).
Qed.

Lemma run_keys_normalized (cs : list Call) (st : State) :
  keys_normalized st → keys_normalized (run json_Unmarshal cs st).2.
Proof.
  revert st. induction cs as [|c cs IH]; intros st Hinv; [done|].
  rewrite run_cons. cbn [snd]. apply IH. by apply serve_keys_normalized.
Qed.

(** C4.  In every state the manager reaches from its start by serving
    requests, two keys of the map that are equal after upper-casing are
    the same key; every key is its own upper-casing. *)
Theorem reachable_keys_unique (cs : list Call) (db : option (gmap positive Row))
    (k1 k2 : string) :
  let st := (run json_Unmarshal cs (initial db)).2 in
  is_Some (WatchingGas st !! k1) →
  is_Some (WatchingGas st !! k2) →
  ToUpper k1 = ToUpper k2 →
  k1 = k2 ∧ ToUpper k1 = k1.
Proof.
  intros st [g1 H1] [g2 H2] Heq.
  assert (Hinv : keys_normalized st).
  { apply run_keys_normalized. intros k gas. cbn. by rewrite lookup_empty. }
  destruct (Hinv _ _ H1) as [E1 _]. destruct (Hinv _ _ H2) as [E2 _].
  split; [congruence|done].
Qed.

End Runs.

(** ** The store *)

Lemma select_id_nil (db : gmap positive Row) (network : string) :
  select_id db network = [] →
  ∀ i row, db !! i = Some row → row_network row ≠ network.
Proof.
  unfold select_id. intros Hsel i row Hi Hnet.
  assert (Hin : (i, row) ∈ filter (λ p : positive * Row, row_network p.2 = network)
                                  (map_to_list db)).
  { apply list_elem_of_filter. split; [done|]. by apply elem_of_map_to_list. }
  destruct (filter _ (map_to_list db)) as [|p l]; [by apply elem_of_nil in Hin|].
  done.
Qed.

Lemma select_id_cons (db : gmap positive Row) (network : string) (z : Z) (rows : list Z) :
  select_id db network = z :: rows →
  rows = [] ∧ ∃ i row, z = Z.pos i ∧ db !! i = Some row ∧ row_network row = network.
Proof.
  unfold select_id.
  destruct (filter _ (map_to_list db)) as [|[i row] l] eqn:Hf; [done|].
  cbn. rewrite take_0. intros [= <- <-]. split; [done|].
  assert (Hin : (i, row) ∈ filter (λ p : positive * Row, row_network p.2 = network)
                                  (map_to_list db)).
  { rewrite Hf. by left. }
  apply list_elem_of_filter in Hin as [Hnet Hin].
  apply elem_of_map_to_list in Hin. eauto.
Qed.

Lemma alter_const_insert (db : gmap positive Row) (i : positive) (old new : Row) :
  db !! i = Some old → alter (λ _, new) i db = <[i := new]> db.
Proof.
  intros Hi. apply map_eq. intros j.
  rewrite lookup_alter, lookup_insert.
  case_decide; [subst j; by rewrite Hi|done].
Qed.

Lemma addGas_store_found (gas : Gas.t) (db : gmap positive Row) (i : positive) (row : Row) :
  select_id db (Gas.Network gas) = [Z.pos i] →
  db !! i = Some row →
  (addGas_store gas no_faults db).1 = <[i := Gas_row gas]> db.
Proof.
  intros Hsel Hi. unfold addGas_store. cbn. rewrite Hsel. cbn.
  by apply alter_const_insert with row.
Qed.

Lemma addGas_store_missing (gas : Gas.t) (db : gmap positive Row) :
  select_id db (Gas.Network gas) = [] →
  (addGas_store gas no_faults db).1 = <[fresh (dom db) := Gas_row gas]> db.
Proof. intros Hsel. unfold addGas_store. cbn. by rewrite Hsel. Qed.

Lemma at_most_one_row_insert (network : string) (db : gmap positive Row)
    (i : positive) (row : Row) :
  (∀ j rj, db !! j = Some rj → row_network rj = network → j = i) →
  at_most_one_row network (<[i := row]> db).
Proof.
  intros Honly a b ra rb. rewrite !lookup_insert.
  repeat case_decide; subst; intros Ha Hb Hna Hnb; try done.
  - symmetry. by eapply Honly.
  - by eapply Honly.
  - transitivity i; [|symmetry]; by eapply Honly.
Qed.

(** X19.  As long as [rows.Next] does not fail, the store's part of
    [addGas] is an upsert on [network]: when the table has a row whose
    network is the entry's, the run without errors overwrites the token,
    nickname, network and frequency of one such row with the entry's and
    adds no row; when it has none, the run adds one row with these
    columns under an id no row had; a run with errors leaves the table as
    it was or as the run without errors leaves it.  So a table with at
    most one row for that network has at most one afterwards. *)
Theorem addGas_store_upsert (gas : Gas.t) (o : StoreFaults) (db : gmap positive Row) :
  next_err o = None →
  let network := Gas.Network gas in
  let row := mkRow (Gas.token gas) (Gas.Nickname gas) (Gas.Network gas)
                   (Gas.Frequency gas) in
  let db' := (addGas_store gas o db).1 in
  ((∃ i old, db !! i = Some old ∧ row_network old = network) →
   ∃ i old, db !! i = Some old ∧ row_network old = network ∧
            (addGas_store gas no_faults db).1 = <[i := row]> db) ∧
  ((∀ i old, db !! i = Some old → row_network old ≠ network) →
   ∃ i, db !! i = None ∧
        (addGas_store gas no_faults db).1 = <[i := row]> db) ∧
  (db' = db ∨ db' = (addGas_store gas no_faults db).1) ∧
  (at_most_one_row network db → at_most_one_row network db').
Proof.
  intros Hnext network row db'.
  assert (Hcases : db' = db ∨ db' = (addGas_store gas no_faults db).1).
  { subst db'.
    destruct (addGas_store_cases gas o db Hnext) as [->|(msg & _ & H)]; tauto. }
  assert (Hfresh : db !! fresh (dom db) = None).
  { apply not_elem_of_dom. apply is_fresh. }
  destruct (select_id db network) as [|z rows] eqn:Hsel.
  - pose proof (select_id_nil db network Hsel) as Hnone.
    pose proof (addGas_store_missing gas db Hsel) as Hins.
    split; [intros (i & old & Hi & Hnet); by destruct (Hnone i old)|].
    split; [intros _; eauto|].
    split; [done|].
    intros Hone. destruct Hcases as [->| ->]; [done|].
    rewrite Hins. apply at_most_one_row_insert.
    intros j rj Hj Hnet. by destruct (Hnone j rj).
  - destruct (select_id_cons db network z rows Hsel)
      as (-> & i & old & -> & Hi & Hnet).
    pose proof (addGas_store_found gas db i old Hsel Hi) as Hupd.
    split; [intros _; eauto 6|].
    split; [intros Hnone; by destruct (Hnone i old)|].
    split; [done|].
    intros Hone. destruct Hcases as [->| ->]; [done|].
    rewrite Hupd. apply at_most_one_row_insert.
    intros j rj Hj Hnetj. by apply (Hone j i rj old).
Qed.

(** ** When [rows.Next] fails *)

(** C6.  The store's part of [addGas] on a table that holds one row for
    the entry's network, when [rows.Next] fails and every other call
    succeeds.  [rows.Err] is not read, so no row counts as found: the
    entry's row is inserted under a new id beside the old row, which is
    left as it was, and nothing is logged.  The table held at most one row
    for the network before the step and holds two after it. *)
Theorem addGas_store_inserts_beside_row :
  let gas := entry_of eth_abc (initial None) in
  let res := addGas_store gas next_fails eth_row_table in
  at_most_one_row (Gas.Network gas) eth_row_table ∧
  res.1 !! 1%positive = Some (mkRow "old" false "ETH" 60) ∧
  res.1 !! 2%positive = Some (mkRow "abc" true "ETH" 0) ∧
  size res.1 = 2%nat ∧
  ¬ at_most_one_row (Gas.Network gas) res.1 ∧
  res.2 = [].
Proof.
  intros gas res.
  assert (H1 : res.1 !! 1%positive = Some (mkRow "old" false "ETH" 60))
    by (vm_compute; reflexivity).
  assert (H2 : res.1 !! 2%positive = Some (mkRow "abc" true "ETH" 0))
    by (vm_compute; reflexivity).
  split.
  { intros i j ri rj Hi Hj _ _. unfold eth_row_table in *.
    apply lookup_singleton_Some in Hi as [<- _].
    by apply lookup_singleton_Some in Hj as [<- _]. }
  split; [exact H1|]. split; [exact H2|].
  split; [vm_compute; reflexivity|].
  split; [|vm_compute; reflexivity].
  intros Hone. by specialize (Hone _ _ _ _ H1 H2 eq_refl eq_refl).
Qed.

(** C7.  [AddGas] of an accepted request on a store that holds a row for
    the network, when [rows.Next] fails: the request is answered 200,
    the entry is in the map and the gauge is incremented, the store's
    step does not go as the run without errors (it inserts a second row
    where that run updates the first), and no line about the store is
    logged: the error of the store is swallowed without a trace. *)
Theorem AddGas_store_error_not_logged :
  let st := initial (Some eth_row_table) in
  let res := AddGas sample_Unmarshal (newResponseWriter None) post_eth_abc
                    next_fails st in
  status res.1 = Some StatusOK ∧
  WatchingGas res.2 !! "ETH" = Some (entry_of eth_abc st) ∧
  gasCount res.2 = gasCount st + 1 ∧
  DB res.2 ≠ DB (AddGas sample_Unmarshal (newResponseWriter None) post_eth_abc
                        no_faults st).2 ∧
  trace res.2 = [Logged LDebug "Got an API request to add a gas";
                 WatcherStarted 0; GaugeInc; MapStore "ETH"].
Proof.
  intros st res.
  split; [vm_compute; reflexivity|].
  split; [vm_compute; reflexivity|].
  split; [vm_compute; reflexivity|].
  split; [|vm_compute; reflexivity].
  intros Heq.
  assert (H2 := f_equal (λ d : option (gmap positive Row),
                           d ≫= (λ db, db !! 2%positive)) Heq).
  vm_compute in H2. discriminate H2.
Qed.

(** ** What the responses show of the token *)

Lemma marshal_Gas_redact (gas : Gas.t) : marshal_Gas (redact gas) = marshal_Gas gas.
Proof. reflexivity. Qed.

Lemma marshal_WatchingGas_redact (m : gmap string Gas.t) :
  marshal_WatchingGas (redact <$> m) = marshal_WatchingGas m.
Proof.
  unfold marshal_WatchingGas. rewrite <- map_fmap_compose.
  apply (f_equal (λ m', marshal_object (sort_members (map_to_list m')))).
  apply map_fmap_ext. intros k gas _. apply marshal_Gas_redact.
Qed.

Lemma same_but_tokens_lookup (st1 st2 : State) (k : string) :
  same_but_tokens st1 st2 →
  redact <$> (WatchingGas st1 !! k) = redact <$> (WatchingGas st2 !! k).
Proof. intros [H _]. by rewrite <- !lookup_fmap, H. Qed.

Section TwoRuns.

Variable json_Unmarshal : string → result GasRequest.t.

(** [AddGas] once the body is read and decoded. *)
Lemma AddGas_decoded (broken : error) (r : Request) (o : StoreFaults)
    (st : State) (body : string) (req : GasRequest.t) :
  Body r = Ok body →
  json_Unmarshal body = Ok req →
  AddGas json_Unmarshal (newResponseWriter broken) r o st =
    let st0 := logf LDebug "Got an API request to add a gas" st in
    let w := newResponseWriter broken in
    if decide (GasRequest.Token req = EmptyString) then
      (WriteHeader StatusBadRequest w, logf LError "Discord token required" st0)
    else if decide (GasRequest.Network req = EmptyString) then
      (WriteHeader StatusBadRequest w, logf LError "Network required" st0)
    else if decide (is_Some (WatchingGas st !! ToUpper (GasRequest.Network req))) then
      (WriteHeader StatusConflict w, logf LError "Network already exists" st0)
    else
      let gas := entry_of req st in
      let st2 := addGas gas o (started req st) in
      let hdr : gmap string string :=
        {["Content-Type" := "application/json; charset=UTF-8"]} in
      match broken with
      | Some e =>
          (mkRW hdr (Some StatusOK) EmptyString (Some e),
           logf LError ("Unable to encode gas: " +:+ e) st2)
      | None =>
          (mkRW hdr (Some StatusOK)
                (marshal_Gas gas +:+ String "010" EmptyString) None, st2)
      end.
Proof.
  intros Hb Hd. cbn zeta.
  destruct (decide (GasRequest.Token req = EmptyString)) as [Ht|Ht].
  { unfold AddGas. rewrite Hb, Hd. by destruct (decide _). }
  destruct (decide (GasRequest.Network req = EmptyString)) as [Hn|Hn].
  { unfold AddGas. rewrite Hb, Hd. destruct (decide _); [done|].
    by destruct (decide _). }
  destruct (decide _) as [Hl|Hl].
  - by apply AddGas_conflict with body req.
  - apply (AddGas_accepted_eq json_Unmarshal broken r o st req).
    split; [eauto|]. split; [done|]. split; [done|].
    by apply eq_None_not_Some.
Qed.

Lemma AddGas_same_but_token (broken : error) (r1 r2 : Request) (o : StoreFaults)
    (st1 st2 : State) (body1 body2 : string) (q1 q2 : GasRequest.t) :
  Body r1 = Ok body1 → json_Unmarshal body1 = Ok q1 →
  Body r2 = Ok body2 → json_Unmarshal body2 = Ok q2 →
  same_but_token q1 q2 →
  same_but_tokens st1 st2 →
  (AddGas json_Unmarshal (newResponseWriter broken) r1 o st1).1 =
  (AddGas json_Unmarshal (newResponseWriter broken) r2 o st2).1 ∧
  same_but_tokens (AddGas json_Unmarshal (newResponseWriter broken) r1 o st1).2
                  (AddGas json_Unmarshal (newResponseWriter broken) r2 o st2).2.
Proof.
  intros Hb1 Hd1 Hb2 Hd2 (Hnet & Hnick & Hfreq & Htok) Hsim.
  rewrite (AddGas_decoded broken r1 o st1 body1 q1 Hb1 Hd1).
  rewrite (AddGas_decoded broken r2 o st2 body2 q2 Hb2 Hd2).
  cbn zeta. rewrite <- Hnet.
  pose proof (same_but_tokens_lookup st1 st2
                (ToUpper (GasRequest.Network q1)) Hsim) as Hl.
  destruct (decide (GasRequest.Token q1 = EmptyString)) as [Ht1|Ht1];
    destruct (decide (GasRequest.Token q2 = EmptyString)) as [Ht2|Ht2];
    try tauto.
  destruct (decide (GasRequest.Network q1 = EmptyString));
    [by destruct Hsim|].
  destruct (decide (is_Some (WatchingGas st1 !! _))) as [Hs1|Hs1];
    destruct (decide (is_Some (WatchingGas st2 !! _))) as [Hs2|Hs2].
  - by destruct Hsim.
  - destruct Hs1 as [g Hg]. rewrite Hg in Hl.
    destruct (WatchingGas st2 !! _); [by destruct Hs2|done].
  - destruct Hs2 as [g Hg]. rewrite Hg in Hl.
    destruct (WatchingGas st1 !! _); [by destruct Hs1|done].
  - destruct Hsim as [Hmap Hw].
    assert (Hgas : redact (entry_of q1 st1) = redact (entry_of q2 st2)).
    { unfold entry_of, redact. cbn. by rewrite Hnet, Hnick, Hfreq, Hw. }
    assert (Hbody : marshal_Gas (entry_of q1 st1) = marshal_Gas (entry_of q2 st2)).
    { by rewrite <- (marshal_Gas_redact (entry_of q1 st1)), Hgas. }
    assert (Hkey : Gas.Network (entry_of q1 st1) = Gas.Network (entry_of q2 st2)).
    { cbn. by rewrite Hnet. }
    split; [destruct broken; cbn [fst]; by rewrite ?Hbody|].
    assert (Hst : same_but_tokens (addGas (entry_of q1 st1) o (started q1 st1))
                                  (addGas (entry_of q2 st2) o (started q2 st2))).
    { split.
      - rewrite !addGas_WatchingGas, !fmap_insert, Hgas, Hkey. cbn.
        by rewrite Hmap.
      - rewrite !addGas_watchers. cbn. by rewrite Hw. }
    by destruct broken.
Qed.

Lemma serve_same_but_tokens (c1 c2 : Call) (st1 st2 : State) :
  call_variant json_Unmarshal c1 c2 →
  same_but_tokens st1 st2 →
  (serve json_Unmarshal c1 st1).1 = (serve json_Unmarshal c2 st2).1 ∧
  same_but_tokens (serve json_Unmarshal c1 st1).2 (serve json_Unmarshal c2 st2).2.
Proof.
  intros Hc Hsim. destruct Hc as [c|broken r1 r2 o body1 body2 q1 q2 Hb1 Hd1 Hb2 Hd2 Hq].
  - destruct c as [broken r o|broken r|broken r]; cbn [serve].
    + destruct (Body r) as [body|e] eqn:Hb;
        [|unfold AddGas; rewrite Hb; by destruct Hsim].
      destruct (json_Unmarshal body) as [req|e] eqn:Hd;
        [|unfold AddGas; rewrite Hb, Hd; by destruct Hsim].
      by apply (AddGas_same_but_token broken r r o st1 st2 body body req req).
    + pose proof (same_but_tokens_lookup st1 st2
                    (ToUpper (index (Vars r) "id")) Hsim) as Hl.
      unfold DeleteGas. cbn zeta. cbn [WatchingGas logf].
      destruct Hsim as [Hmap Hw].
      destruct (WatchingGas st1 !! _) as [g1|];
        destruct (WatchingGas st2 !! _) as [g2|]; try done.
      split; [done|]. split; [|done]. cbn. by rewrite !fmap_delete, Hmap.
    + unfold GetGas.
      assert (Henc : marshal_WatchingGas (WatchingGas st1) =
                     marshal_WatchingGas (WatchingGas st2)).
      { rewrite <- (marshal_WatchingGas_redact (WatchingGas st1)).
        rewrite <- (marshal_WatchingGas_redact (WatchingGas st2)).
        destruct Hsim as [Hmap _]. by rewrite Hmap. }
      rewrite Henc.
      destruct (Encode _ _) as [w [e|]]; by destruct Hsim.
  - cbn [serve].
    by apply (AddGas_same_but_token broken r1 r2 o st1 st2 body1 body2 q1 q2).
Qed.

(** C9.  Two runs of the manager whose calls differ only in the token that
    the [AddGas] requests supply (empty in both or in neither), from the
    same state or from states that differ only in the tokens of their
    entries, give the same responses, call by call: the same header,
    status and body for every [AddGas], [DeleteGas] and [GetGas].  No
    response depends on a token. *)
Theorem responses_do_not_depend_on_token (cs1 cs2 : list Call) (st1 st2 : State) :
  Forall2 (call_variant json_Unmarshal) cs1 cs2 →
  same_but_tokens st1 st2 →
  (run json_Unmarshal cs1 st1).1 = (run json_Unmarshal cs2 st2).1.
Proof.
  intros Hcs. revert st1 st2.
  induction Hcs as [|c1 c2 cs1 cs2 Hc Hcs IH]; intros st1 st2 Hsim; [done|].
  rewrite !run_cons. cbn [fst].
  destruct (serve_same_but_tokens c1 c2 st1 st2 Hc Hsim) as [-> Hsim'].
  f_equal. by apply IH.
Qed.

End TwoRuns.

(** * Examples *)

Lemma AddGas_then_DeleteGas_any_casing_witness :
  status (AddGas sample_Unmarshal (newResponseWriter None) post_eth_abc
                 no_faults (initial None)).1 = Some StatusOK ∧
  status (DeleteGas (newResponseWriter None) (delete_id "eTh") watching_eth).1
    = Some StatusNoContent.
Proof.
  split; [reflexivity|].
  destruct (AddGas_then_DeleteGas_any_casing sample_Unmarshal None post_eth_abc
              no_faults (initial None) eq_refl)
    as (body & req & Hb & Hd & _ & _ & Hdel & _).
  injection Hb as <-. injection Hd as <-.
  apply Hdel. reflexivity.
Defined.

Lemma AddGas_rejects_before_mutation_witness :
  (Body post_btc_no_token = Ok "{network:btc,frequency:30}" ∧
   sample_Unmarshal "{network:btc,frequency:30}" = Ok btc_no_token ∧
   GasRequest.Token btc_no_token = EmptyString) ∧
  status (AddGas sample_Unmarshal (newResponseWriter None) post_btc_no_token
                 no_faults watching_eth).1 = Some StatusBadRequest ∧
  no_mutation watching_eth
    (AddGas sample_Unmarshal (newResponseWriter None) post_btc_no_token
            no_faults watching_eth).2.
Proof.
  split; [repeat split|].
  apply (AddGas_rejects_before_mutation sample_Unmarshal None post_btc_no_token
           no_faults watching_eth _ btc_no_token eq_refl eq_refl).
  left. reflexivity.
Defined.

Lemma AddGas_malformed_body_witness :
  (Body post_truncated = Ok "{network:" ∧
   sample_Unmarshal "{network:" = Err "invalid character") ∧
  status (AddGas sample_Unmarshal (newResponseWriter None) post_truncated
                 no_faults watching_eth).1 = Some StatusInternalServerError ∧
  no_mutation watching_eth
    (AddGas sample_Unmarshal (newResponseWriter None) post_truncated
            no_faults watching_eth).2.
Proof.
  split; [split; reflexivity|].
  apply (AddGas_malformed_body sample_Unmarshal None post_truncated no_faults
           watching_eth "{network:" "invalid character" eq_refl eq_refl).
Defined.

(** C3, as the claim states it, fails: a body that the decoder rejects is
    not answered 400. *)
Lemma AddGas_malformed_body_not_400 :
  ¬ (∀ (json_Unmarshal : string → result GasRequest.t) (broken : error)
       (r : Request) (o : StoreFaults) (st : State) (body e : string),
       Body r = Ok body →
       json_Unmarshal body = Err e →
       status (AddGas json_Unmarshal (newResponseWriter broken) r o st).1
         = Some StatusBadRequest).
Proof.
  intros H.
  specialize (H sample_Unmarshal None post_truncated no_faults (initial None)
                "{network:" "invalid character" eq_refl eq_refl).
  vm_compute in H. discriminate H.
Qed.

Lemma reachable_keys_unique_witness :
  (is_Some (WatchingGas
     (run sample_Unmarshal
          [CallAdd None post_eth_abc no_faults; CallAdd None post_ETH_abc no_faults;
           CallDelete None (delete_id "btc")]
          (initial None)).2 !! "ETH") ∧
   ToUpper "ETH" = ToUpper "ETH") ∧
  "ETH" = "ETH" ∧ ToUpper "ETH" = "ETH".
Proof.
  assert (Hin : is_Some (WatchingGas
     (run sample_Unmarshal
          [CallAdd None post_eth_abc no_faults; CallAdd None post_ETH_abc no_faults;
           CallDelete None (delete_id "btc")]
          (initial None)).2 !! "ETH")).
  { eexists. vm_compute. reflexivity. }
  split; [split; [exact Hin|reflexivity]|].
  exact (reachable_keys_unique sample_Unmarshal _ None "ETH" "ETH" Hin Hin eq_refl).
Defined.

Lemma DeleteGas_present_witness :
  WatchingGas watching_eth !! ToUpper (index (Vars (delete_id "eth")) "id")
    = Some (entry_of eth_abc (initial None)) ∧
  status (DeleteGas (newResponseWriter None) (delete_id "eth") watching_eth).1
    = Some StatusNoContent ∧
  gasCount (DeleteGas (newResponseWriter None) (delete_id "eth") watching_eth).2
    = gasCount watching_eth - 1.
Proof.
  assert (Hin : WatchingGas watching_eth !! ToUpper (index (Vars (delete_id "eth")) "id")
                = Some (entry_of eth_abc (initial None))).
  { vm_compute. reflexivity. }
  split; [exact Hin|].
  destruct (DeleteGas_present None (delete_id "eth") watching_eth _ Hin)
    as (H204 & _ & Hcount & _).
  split; [exact H204|exact Hcount].
Defined.

Lemma addGas_store_upsert_witness :
  next_err exec_fails = None ∧
  at_most_one_row "ETH" {[1%positive := mkRow "old" false "ETH" 60]} ∧
  at_most_one_row "ETH"
    (addGas_store (entry_of eth_abc (initial None)) exec_fails
                  {[1%positive := mkRow "old" false "ETH" 60]}).1 ∧
  at_most_one_row "ETH"
    (addGas_store (entry_of eth_abc (initial None)) no_faults
                  {[1%positive := mkRow "old" false "ETH" 60]}).1.
Proof.
  assert (Hone : at_most_one_row "ETH" {[1%positive := mkRow "old" false "ETH" 60]}).
  { intros i j ri rj Hi Hj _ _.
    apply lookup_singleton_Some in Hi as [<- _].
    apply lookup_singleton_Some in Hj as [<- _]. reflexivity. }
  split; [reflexivity|]. split; [exact Hone|]. split.
  - apply (addGas_store_upsert (entry_of eth_abc (initial None)) exec_fails
             {[1%positive := mkRow "old" false "ETH" 60]} eq_refl). exact Hone.
  - apply (addGas_store_upsert (entry_of eth_abc (initial None)) no_faults
             {[1%positive := mkRow "old" false "ETH" 60]} eq_refl). exact Hone.
Defined.

Lemma sample_accepted (st : State) :
  WatchingGas st !! "ETH" = None → accepted sample_Unmarshal post_eth_abc eth_abc st.
Proof.
  intros Hl. split; [eexists; split; reflexivity|].
  split; [discriminate|]. split; [discriminate|exact Hl].
Qed.

Lemma AddGas_ok_whatever_the_store_witness :
  accepted sample_Unmarshal post_eth_abc eth_abc (initial (Some ∅)) ∧
  status (AddGas sample_Unmarshal (newResponseWriter None) post_eth_abc
                 exec_fails (initial (Some ∅))).1 = Some StatusOK ∧
  WatchingGas (AddGas sample_Unmarshal (newResponseWriter None) post_eth_abc
                      exec_fails (initial (Some ∅))).2 !! "ETH"
    = Some (entry_of eth_abc (initial (Some ∅))).
Proof.
  assert (Hacc : accepted sample_Unmarshal post_eth_abc eth_abc (initial (Some ∅))).
  { apply sample_accepted. reflexivity. }
  split; [exact Hacc|].
  destruct (AddGas_ok_whatever_the_store sample_Unmarshal None post_eth_abc
              exec_fails (initial (Some ∅)) eth_abc Hacc)
    as (H200 & _ & Hin & _).
  split; [exact H200|exact Hin].
Defined.

Lemma AddGas_keeps_zero_frequency_witness :
  (accepted sample_Unmarshal post_eth_abc eth_abc (initial None) ∧
   GasRequest.Frequency eth_abc = 0) ∧
  ∃ gas,
    WatchingGas watching_eth !! ToUpper (GasRequest.Network eth_abc) = Some gas ∧
    Gas.Frequency gas = 0.
Proof.
  assert (Hacc : accepted sample_Unmarshal post_eth_abc eth_abc (initial None)).
  { apply sample_accepted. reflexivity. }
  split; [split; [exact Hacc|reflexivity]|].
  destruct (AddGas_keeps_zero_frequency sample_Unmarshal None post_eth_abc
              no_faults (initial None) eth_abc Hacc eq_refl)
    as (_ & gas & Hin & Hzero & _).
  exists gas. split; [exact Hin|exact Hzero].
Defined.

Lemma responses_do_not_depend_on_token_witness :
  (Forall2 (call_variant sample_Unmarshal)
     [CallAdd None post_eth_abc no_faults; CallGet None get]
     [CallAdd None post_eth_xyz no_faults; CallGet None get] ∧
   same_but_tokens (initial (Some ∅)) (initial (Some ∅))) ∧
  (run sample_Unmarshal [CallAdd None post_eth_abc no_faults; CallGet None get]
       (initial (Some ∅))).1 =
  (run sample_Unmarshal [CallAdd None post_eth_xyz no_faults; CallGet None get]
       (initial (Some ∅))).1.
Proof.
  assert (Hcs : Forall2 (call_variant sample_Unmarshal)
    [CallAdd None post_eth_abc no_faults; CallGet None get]
    [CallAdd None post_eth_xyz no_faults; CallGet None get]).
  { constructor.
    - apply (variant_token sample_Unmarshal None post_eth_abc post_eth_xyz no_faults
               _ _ eth_abc eth_xyz eq_refl eq_refl eq_refl eq_refl).
      repeat split; discriminate.
    - constructor; [apply variant_same|constructor]. }
  split; [split; [exact Hcs|split; reflexivity]|].
  exact (responses_do_not_depend_on_token sample_Unmarshal _ _
           (initial (Some ∅)) (initial (Some ∅)) Hcs (conj eq_refl eq_refl)).
Defined.

Lemma AddGas_encode_failure_keeps_entry_witness :
  accepted sample_Unmarshal post_eth_abc eth_abc (initial None) ∧
  WatchingGas (AddGas sample_Unmarshal (newResponseWriter (Some "broken pipe"))
                      post_eth_abc no_faults (initial None)).2 !! "ETH"
    = Some (entry_of eth_abc (initial None)) ∧
  status (AddGas sample_Unmarshal (newResponseWriter None) post_eth_abc no_faults
            (AddGas sample_Unmarshal (newResponseWriter (Some "broken pipe"))
                    post_eth_abc no_faults (initial None)).2).1
    = Some StatusConflict.
Proof.
  assert (Hacc : accepted sample_Unmarshal post_eth_abc eth_abc (initial None)).
  { apply sample_accepted. reflexivity. }
  split; [exact Hacc|].
  destruct (AddGas_encode_failure_keeps_entry sample_Unmarshal "broken pipe"
              post_eth_abc no_faults (initial None) eth_abc Hacc)
    as (_ & Hin & _ & Hagain).
  split; [exact Hin|].
  exact (proj1 (Hagain None no_faults)).
Defined.

(** The scenario of the spec: create, create again, list, delete, list,
    delete again; then a body the decoder rejects and a request without a
    token. *)
Example scenario_statuses :
  status <$> (run sample_Unmarshal
                [ CallAdd None post_eth_abc no_faults;
                  CallAdd None post_eth_abc no_faults;
                  CallGet None get;
                  CallDelete None (delete_id "ETH");
                  CallGet None get;
                  CallDelete None (delete_id "ETH");
                  CallAdd None post_truncated no_faults;
                  CallAdd None post_btc_no_token no_faults ]
                (initial None)).1
  = Some <$> [200; 409; 200; 204; 200; 404; 500; 400].
Proof. vm_compute. reflexivity. Qed.

(** The created entry as it is written to the client: no token in it. *)
Example created_entry_body :
  body (AddGas sample_Unmarshal (newResponseWriter None) post_eth_abc no_faults
               (initial None)).1
  = marshal_object [ ("network", quoted "ETH"); ("nickname", "true");
                     ("frequency", "0") ] +:+ String "010" EmptyString.
Proof. vm_compute. reflexivity. Qed.

(** * Further properties of the handlers *)

(** A hypothesis taken apart into its cases, then closed by congruence. *)
Ltac by_cases_of_hyps :=
  intros;
  repeat match goal with
         | H : ∃ _, _ |- _ => destruct H
         | H : _ ∧ _ |- _ => destruct H
         | H : _ ∨ _ |- _ => destruct H
         | H : is_Some _ |- _ => destruct H
         end;
  congruence.

(** Four equivalences, each of them plainly true or plainly false once the
    status is known. *)
Ltac tabulate :=
  split; [|split; [|split]];
  (split; [first [by intros [=] | intros _; eauto 10]
          |first [done | by_cases_of_hyps]]).

Section HandlerStatuses.

Variable json_Unmarshal : string → result GasRequest.t.

(** X1.  When the body cannot be read, [AddGas] answers 500 with an empty
    body, logs the error and changes nothing; the decoder is not
    consulted. *)
Theorem AddGas_body_read_error (broken : error) (r : Request) (o : StoreFaults)
    (st : State) (e : string) :
  Body r = Err e →
  let res := AddGas json_Unmarshal (newResponseWriter broken) r o st in
  status res.1 = Some StatusInternalServerError ∧
  body res.1 = EmptyString ∧
  no_mutation st res.2 ∧
  Logged LError e ∈ trace res.2 ∧
  ∀ other_Unmarshal : string → result GasRequest.t,
    AddGas other_Unmarshal (newResponseWriter broken) r o st = res.
Proof.
  intros Hb res. subst res. unfold AddGas. rewrite Hb. cbn [fst snd].
  split; [done|]. split; [done|].
  split; [apply no_mutation_logf2|].
  split; [|done].
  cbn. rewrite !elem_of_app. right. by apply list_elem_of_singleton.
Qed.

(** X2.  Whenever [AddGas] answers anything but 200, the status is 400,
    409 or 500, the response has no header and no body, and the map, the
    gauge, the store and the watchers are untouched. *)
Theorem AddGas_failure_has_no_effect (broken : error) (r : Request)
    (o : StoreFaults) (st : State) :
  let res := AddGas json_Unmarshal (newResponseWriter broken) r o st in
  status res.1 ≠ Some StatusOK →
  (status res.1 = Some StatusBadRequest ∨
   status res.1 = Some StatusConflict ∨
   status res.1 = Some StatusInternalServerError) ∧
  header res.1 = ∅ ∧
  body res.1 = EmptyString ∧
  no_mutation st res.2.
Proof.
  intros res. subst res.
  assert (Hfail : ∀ (code : Z) (lvl : Level) (msg : string),
    code = StatusBadRequest ∨ code = StatusConflict ∨
    code = StatusInternalServerError →
    let res := (WriteHeader code (newResponseWriter broken),
                logf lvl msg (logf LDebug "Got an API request to add a gas" st)) in
    (status res.1 = Some StatusBadRequest ∨
     status res.1 = Some StatusConflict ∨
     status res.1 = Some StatusInternalServerError) ∧
    header res.1 = ∅ ∧ body res.1 = EmptyString ∧ no_mutation st res.2).
  { intros code lvl msg Hcode. cbn.
    split; [destruct Hcode as [->|[->| ->]]; auto|].
    split; [done|]. split; [done|]. apply no_mutation_logf2. }
  unfold AddGas.
  destruct (Body r) as [body|e]; [|intros _; apply Hfail; auto].
  destruct (json_Unmarshal body) as [req|e]; [|intros _; apply Hfail; auto].
  destruct (decide _); [intros _; apply Hfail; auto|].
  destruct (decide _); [intros _; apply Hfail; auto|].
  destruct (WatchingGas _ !! _); [intros _; apply Hfail; auto|].
  cbn [NewGas]. by destruct broken.
Qed.

(** X3.  The status of [AddGas] is decided in this order: 500 when the
    body cannot be read or decoded; else 400 when the token or the network
    is empty; else 409 when the upper-cased network is watched; else
    200. *)
Theorem AddGas_status_table (broken : error) (r : Request) (o : StoreFaults)
    (st : State) :
  let s := status (AddGas json_Unmarshal (newResponseWriter broken) r o st).1 in
  (s = Some StatusInternalServerError ↔
     (∃ e, Body r = Err e) ∨
     (∃ body e, Body r = Ok body ∧ json_Unmarshal body = Err e)) ∧
  (s = Some StatusBadRequest ↔
     ∃ body req, Body r = Ok body ∧ json_Unmarshal body = Ok req ∧
       (GasRequest.Token req = EmptyString ∨
        GasRequest.Network req = EmptyString)) ∧
  (s = Some StatusConflict ↔
     ∃ body req, Body r = Ok body ∧ json_Unmarshal body = Ok req ∧
       GasRequest.Token req ≠ EmptyString ∧
       GasRequest.Network req ≠ EmptyString ∧
       is_Some (WatchingGas st !! ToUpper (GasRequest.Network req))) ∧
  (s = Some StatusOK ↔ ∃ req, accepted json_Unmarshal r req st).
Proof.
  intros s. subst s. unfold accepted.
  unfold StatusInternalServerError, StatusBadRequest, StatusConflict, StatusOK.
  destruct (Body r) as [body|e] eqn:Hb.
  2: { unfold AddGas. rewrite Hb. cbn. tabulate. }
  destruct (json_Unmarshal body) as [req|e] eqn:Hd.
  2: { unfold AddGas. rewrite Hb, Hd. cbn. tabulate. }
  rewrite (AddGas_decoded json_Unmarshal broken r o st body req Hb Hd).
  cbn zeta.
  destruct (decide (GasRequest.Token req = EmptyString)) as [Ht|Ht];
    [cbn; tabulate|].
  destruct (decide (GasRequest.Network req = EmptyString)) as [Hn|Hn];
    [cbn; tabulate|].
  destruct (decide (is_Some _)) as [Hl|Hl]; [cbn; tabulate|].
  apply eq_None_not_Some in Hl.
  destruct broken; cbn; tabulate.
Qed.

End HandlerStatuses.

(** ** [DeleteGas] and [GetGas] *)

(** X4.  [DeleteGas] of a key that is not in the map (also when the path
    has no id at all, which reads as the empty key) answers 404 with an
    empty body, logs the upper-cased id and changes nothing. *)
Theorem DeleteGas_absent (broken : error) (r : Request) (st : State) :
  let id := ToUpper (index (Vars r) "id") in
  WatchingGas st !! id = None →
  let res := DeleteGas (newResponseWriter broken) r st in
  status res.1 = Some StatusNotFound ∧
  body res.1 = EmptyString ∧
  no_mutation st res.2 ∧
  Logged LError ("No gas found: " +:+ id) ∈ trace res.2.
Proof.
  intros id Hl res. subst res. unfold DeleteGas. cbn zeta. fold id.
  cbn [WatchingGas logf]. rewrite Hl. cbn [fst snd].
  split; [done|]. split; [done|]. split; [apply no_mutation_logf2|].
  cbn. rewrite !elem_of_app. right. by apply list_elem_of_singleton.
Qed.

(** X5.  [DeleteGas] answers 204 exactly when the upper-cased id is a key
    of the map and 404 exactly when it is not; it never writes a header or
    a body. *)
Theorem DeleteGas_status_table (broken : error) (r : Request) (st : State) :
  let res := DeleteGas (newResponseWriter broken) r st in
  let found := WatchingGas st !! ToUpper (index (Vars r) "id") in
  (status res.1 = Some StatusNoContent ↔ is_Some found) ∧
  (status res.1 = Some StatusNotFound ↔ found = None) ∧
  header res.1 = ∅ ∧
  body res.1 = EmptyString.
Proof.
  intros res found. subst res found. unfold DeleteGas. cbn zeta.
  cbn [WatchingGas logf].
  destruct (WatchingGas st !! _) as [gas|]; cbn.
  - split; [split; [by eexists|done]|]. split; [split; [intros [=]|done]|done].
  - split; [split; [intros [=]|by intros [? ?]]|]. done.
Qed.

(** The path id is case-insensitive: two [DeleteGas] requests whose
    ids have the same upper-casing give the same response and the same
    state, log lines included. *)
Theorem DeleteGas_case_insensitive (w : ResponseWriter) (r1 r2 : Request)
    (st : State) :
  ToUpper (index (Vars r1) "id") = ToUpper (index (Vars r2) "id") →
  DeleteGas w r1 st = DeleteGas w r2 st.
Proof. intros Hid. unfold DeleteGas. cbn zeta. by rewrite Hid. Qed.

(** X6.  Whatever it answers, [DeleteGas] leaves the store, the number of
    watchers started and every entry under another key as they are, adds
    no entry, and lowers the gauge by one exactly when it removes the
    entry. *)
Theorem DeleteGas_frame (w : ResponseWriter) (r : Request) (st : State) :
  let id := ToUpper (index (Vars r) "id") in
  let res := DeleteGas w r st in
  DB res.2 = DB st ∧
  watchers res.2 = watchers st ∧
  WatchingGas res.2 !! id = None ∧
  (∀ k, k ≠ id → WatchingGas res.2 !! k = WatchingGas st !! k) ∧
  gasCount res.2 = gasCount st - match WatchingGas st !! id with Some _ => 1 | None => 0 end.
Proof.
  intros id res. subst res. unfold DeleteGas. cbn zeta. fold id.
  cbn [WatchingGas logf].
  destruct (WatchingGas st !! id) as [gas|] eqn:Hl; cbn.
  - split; [done|]. split; [done|].
    split; [apply lookup_delete_eq|].
    split; [|done]. intros k Hk. by apply lookup_delete_ne.
  - split; [done|]. split; [done|]. split; [done|].
    split; [done|]. lia.
Qed.

(** X7.  [GetGas] always answers 200 with the JSON content type and
    changes nothing.  On a working connection the body is the encoding of
    the map followed by a line feed and nothing is logged; on a broken one
    nothing is written and the error is logged.  The request is not
    read. *)
Theorem GetGas_read_only (broken : error) (r : Request) (st : State) :
  let res := GetGas (newResponseWriter broken) r st in
  status res.1 = Some StatusOK ∧
  header res.1 !! "Content-Type" = Some "application/json; charset=UTF-8" ∧
  WatchingGas res.2 = WatchingGas st ∧ DB res.2 = DB st ∧
  gasCount res.2 = gasCount st ∧ watchers res.2 = watchers st ∧
  match broken with
  | None =>
      body res.1 = marshal_WatchingGas (WatchingGas st) +:+ String "010" EmptyString ∧
      res.2 = st
  | Some e =>
      body res.1 = EmptyString ∧
      trace res.2 = trace st ++ [Logged LError ("Serving request: " +:+ e)]
  end ∧
  ∀ r', GetGas (newResponseWriter broken) r' st = res.
Proof.
  intros res. subst res. unfold GetGas.
  destruct broken as [e|]; cbn; repeat split; by destruct st.
Qed.

(** ** The store's part of [addGas] *)

(** The run without errors writes the entry's row under one id: the id of
    the row the [SELECT] found, or an id that no row had when no row has
    the network. *)
Lemma addGas_store_written (gas : Gas.t) (db : gmap positive Row) :
  ∃ i, (addGas_store gas no_faults db).1 = <[i := Gas_row gas]> db ∧
       ((db !! i = None ∧
         ∀ j row, db !! j = Some row → row_network row ≠ Gas.Network gas) ∨
        (∃ row, db !! i = Some row ∧ row_network row = Gas.Network gas)).
Proof.
  destruct (select_id db (Gas.Network gas)) as [|z rows] eqn:Hsel.
  - exists (fresh (dom db)). split; [by apply addGas_store_missing|].
    left. split; [apply not_elem_of_dom, is_fresh|].
    by apply select_id_nil.
  - destruct (select_id_cons db _ z rows Hsel) as (-> & i & row & -> & Hi & Hnet).
    exists i. split; [by apply addGas_store_found with row|].
    right. eauto.
Qed.

(** The table after the store's part of [addGas], whatever the errors: as
    it was, or with the entry's row written under an id that was free or
    was the id of a row of the entry's network. *)
Lemma addGas_store_shape (gas : Gas.t) (o : StoreFaults) (db : gmap positive Row) :
  (addGas_store gas o db).1 = db ∨
  ∃ i, (addGas_store gas o db).1 = <[i := Gas_row gas]> db ∧
       (db !! i = None ∨
        ∃ row, db !! i = Some row ∧ row_network row = Gas.Network gas).
Proof.
  destruct (addGas_store_table gas o db) as [->|[->| ->]]; [by left| |].
  - right. destruct (addGas_store_written gas db) as (i & -> & [[Hi _]|Hi]);
      eauto.
  - right. exists (fresh (dom db)). split; [done|].
    left. apply not_elem_of_dom, is_fresh.
Qed.

(** X8.  Whatever errors the store returns, the store's part of [addGas]
    deletes no row, leaves every row of another network as it is, and
    every row of the table afterwards is a row of the table before or the
    row of the entry. *)
Theorem addGas_store_frame (gas : Gas.t) (o : StoreFaults) (db : gmap positive Row) :
  let db' := (addGas_store gas o db).1 in
  (∀ j, is_Some (db !! j) → is_Some (db' !! j)) ∧
  (∀ j row, db !! j = Some row → row_network row ≠ Gas.Network gas →
            db' !! j = Some row) ∧
  (∀ j row, db' !! j = Some row → db !! j = Some row ∨ row = Gas_row gas).
Proof.
  intros db'. subst db'.
  destruct (addGas_store_shape gas o db) as [->|(i & -> & Hi)]; [by eauto|].
  split; [|split].
  - intros j Hj. rewrite lookup_insert. by case_decide.
  - intros j row Hj Hnet. rewrite lookup_insert_ne; [done|].
    intros ->. destruct Hi as [Hnone|(row' & Hrow & Hnet')]; congruence.
  - intros j row. rewrite lookup_insert. case_decide; [|by left].
    intros [= <-]. by right.
Qed.

(** X9.  The run without errors adds exactly one row when no row has the
    entry's network and none when one has.  Whatever the errors, the
    table grows by at most one row; as long as [rows.Next] does not fail
    it has the size it had or the size the run without errors gives
    it. *)
Theorem addGas_store_size (gas : Gas.t) (o : StoreFaults) (db : gmap positive Row) :
  let written := (addGas_store gas no_faults db).1 in
  ((∃ j row, db !! j = Some row ∧ row_network row = Gas.Network gas) →
   size written = size db) ∧
  ((∀ j row, db !! j = Some row → row_network row ≠ Gas.Network gas) →
   size written = S (size db)) ∧
  (size (addGas_store gas o db).1 = size db ∨
   size (addGas_store gas o db).1 = S (size db)) ∧
  (next_err o = None →
   size (addGas_store gas o db).1 = size db ∨
   size (addGas_store gas o db).1 = size written).
Proof.
  intros written. subst written.
  split; [|split; [|split]].
  - intros (j & row & Hj & Hnet).
    destruct (addGas_store_written gas db) as (i & -> & [[_ Hnone]|(row' & Hi & _)]).
    + by destruct (Hnone j row).
    + apply map_size_insert_Some. by eexists.
  - intros Hnone.
    destruct (addGas_store_written gas db) as (i & -> & [[Hi _]|(row' & Hi & Hnet)]).
    + by apply map_size_insert_None.
    + by destruct (Hnone i row').
  - destruct (addGas_store_shape gas o db) as [->|(i & -> & [Hi|(row & Hi & _)])].
    + by left.
    + right. by apply map_size_insert_None.
    + left. apply map_size_insert_Some. by eexists.
  - intros Hnext.
    destruct (addGas_store_cases gas o db Hnext) as [->|(msg & _ & [->| ->])];
      auto.
Qed.

(** X10.  An upsert repeated is the upsert: once the run without errors
    has written the entry's row to a table with at most one row for its
    network, the [SELECT] finds exactly that row, and the store's part of
    [addGas] for the same entry leaves the table as it is, whatever errors
    the store's calls return, as long as [rows.Next] does not fail. *)
Theorem addGas_store_idempotent (gas : Gas.t) (o : StoreFaults)
    (db : gmap positive Row) :
  at_most_one_row (Gas.Network gas) db →
  next_err o = None →
  let written := (addGas_store gas no_faults db).1 in
  (∃ i, written !! i = Some (Gas_row gas) ∧
        select_id written (Gas.Network gas) = [Z.pos i]) ∧
  (addGas_store gas o written).1 = written.
Proof.
  intros Hone Hnext written.
  destruct (addGas_store_written gas db) as (i & Hw & Hi).
  fold written in Hw.
  assert (Hrow : written !! i = Some (Gas_row gas)).
  { rewrite Hw. apply lookup_insert_eq. }
  assert (Hone' : at_most_one_row (Gas.Network gas) written).
  { rewrite Hw. apply at_most_one_row_insert. intros j rj Hj Hnet.
    destruct Hi as [[_ Hnone]|(row & Hi & Hnet')].
    - by destruct (Hnone j rj).
    - by apply (Hone j i rj row). }
  assert (Hsel : select_id written (Gas.Network gas) = [Z.pos i]).
  { destruct (select_id written (Gas.Network gas)) as [|z rows] eqn:Hsel.
    - by destruct (select_id_nil written _ Hsel i (Gas_row gas)).
    - destruct (select_id_cons written _ z rows Hsel)
        as (-> & j & row & -> & Hj & Hnet).
      by rewrite (Hone' j i row (Gas_row gas)). }
  split; [by eauto|].
  destruct (addGas_store_cases gas o written Hnext)
    as [->|(msg & _ & [->| ->])]; try done.
  all: rewrite (addGas_store_found gas written i (Gas_row gas) Hsel Hrow);
    by apply insert_id.
Qed.


(** ** [addGas] on its own *)

(** The store's part of [addGas] does nothing but write to the table and
    to the log. *)
Lemma addGas_store_logs (gas : Gas.t) (o : StoreFaults) (db : gmap positive Row) :
  Forall is_log (addGas_store gas o db).2.
Proof.
  unfold addGas_store, warning.
  destruct o as [[?|] [?|] en e3 [?|] [?|] [?|]]; cbn;
    try (by repeat constructor);
    destruct (scan_rows _ en e3 0); cbn; try destruct (negb _); cbn;
    by repeat constructor.
Qed.

(** X12.  [addGas] checks nothing itself.  Called for a key that is in the
    map already, it replaces the entry and still raises the gauge by one,
    so the map keeps its size; it never starts or stops a watcher, the
    watcher of the replaced entry included. *)
Theorem addGas_existing_key (gas old : Gas.t) (o : StoreFaults) (st : State) :
  WatchingGas st !! Gas.Network gas = Some old →
  let st' := addGas gas o st in
  WatchingGas st' !! Gas.Network gas = Some gas ∧
  size (WatchingGas st') = size (WatchingGas st) ∧
  gasCount st' = gasCount st + 1 ∧
  ∃ evs, trace st' = trace st ++ evs ∧ Forall (λ ev, ¬ touches_watcher ev) evs.
Proof.
  intros Hold st'. subst st'.
  rewrite addGas_WatchingGas, addGas_gasCount.
  split; [apply lookup_insert_eq|].
  split; [apply map_size_insert_Some; by eexists|].
  split; [done|].
  destruct (DB st) as [db|] eqn:Hdb.
  - rewrite (addGas_trace gas o st db Hdb). eexists. split; [done|].
    repeat constructor; try (by intros []).
    eapply Forall_impl; [apply addGas_store_logs|].
    by intros [] ? ?.
  - rewrite (addGas_no_store gas o st Hdb). cbn.
    exists [GaugeInc; MapStore (Gas.Network gas)].
    split; [by rewrite <- app_assoc|].
    repeat constructor; by intros [].
Qed.

Section Compositions.

Variable json_Unmarshal : string → result GasRequest.t.

(** What [AddGas] does to the map and the gauge: nothing, or one new key
    with the gauge raised by one. *)
Lemma AddGas_gauge_cases (w : ResponseWriter) (r : Request) (o : StoreFaults)
    (st : State) :
  let st' := (AddGas json_Unmarshal w r o st).2 in
  (WatchingGas st' = WatchingGas st ∧ gasCount st' = gasCount st) ∨
  (∃ k gas, WatchingGas st !! k = None ∧
            WatchingGas st' = <[k := gas]> (WatchingGas st) ∧
            gasCount st' = gasCount st + 1).
Proof.
  cbn zeta. unfold AddGas.
  destruct (Body r) as [body|e]; [|by left].
  destruct (json_Unmarshal body) as [req|e]; [|by left].
  destruct (decide _); [by left|].
  destruct (decide _); [by left|].
  destruct (WatchingGas _ !! _) eqn:Hl; [by left|].
  right. cbn [NewGas]. eexists _, _. split; [exact Hl|].
  destruct (Encode _ _) as [w' [e|]]; cbn [snd WatchingGas gasCount logf];
    by rewrite addGas_WatchingGas, addGas_gasCount.
Qed.

Lemma serve_gauge_counts_entries (c : Call) (st : State) :
  gauge_counts_entries st → gauge_counts_entries (serve json_Unmarshal c st).2.
Proof.
  unfold gauge_counts_entries. intros Hinv.
  destruct c as [b r o|b r|b r]; cbn [serve].
  - destruct (AddGas_gauge_cases (newResponseWriter b) r o st)
      as [[-> ->]|(k & gas & Hk & -> & ->)]; [done|].
    rewrite map_size_insert_None by done. lia.
  - unfold DeleteGas. cbn zeta. cbn [WatchingGas logf].
    destruct (WatchingGas st !! _) as [gas|] eqn:Hl; cbn; [|done].
    rewrite <- (insert_delete_id (WatchingGas st) _ gas Hl) in Hinv.
    rewrite map_size_insert_None in Hinv by apply lookup_delete_eq. lia.
  - by rewrite GetGas_WatchingGas; unfold GetGas; destruct (Encode _ _) as [? [?|]].
Qed.

(** X13.  The gauge counts the entries: when it equals the size of the map
    before a run of requests, as it does at process start, it equals the
    size of the map after the run. *)
Theorem run_gauge_counts_entries (cs : list Call) (st : State) :
  gauge_counts_entries st →
  gauge_counts_entries (run json_Unmarshal cs st).2.
Proof.
  revert st. induction cs as [|c cs IH]; intros st Hinv; [done|].
  rewrite run_cons. cbn [snd]. apply IH. by apply serve_gauge_counts_entries.
Qed.

(** X14.  A key that was deleted can be created again: after a
    [DeleteGas] that answered 204, an [AddGas] whose network has the same
    upper-casing as the deleted id, with a token, is answered 200. *)
Theorem DeleteGas_then_AddGas (broken broken' : error) (rd r : Request)
    (o : StoreFaults) (st : State) (body : string) (req : GasRequest.t) :
  status (DeleteGas (newResponseWriter broken) rd st).1 = Some StatusNoContent →
  Body r = Ok body → json_Unmarshal body = Ok req →
  GasRequest.Token req ≠ EmptyString →
  GasRequest.Network req ≠ EmptyString →
  ToUpper (GasRequest.Network req) = ToUpper (index (Vars rd) "id") →
  status (AddGas json_Unmarshal (newResponseWriter broken') r o
            (DeleteGas (newResponseWriter broken) rd st).2).1 = Some StatusOK.
Proof.
  intros Hdel Hb Hd Ht Hn Hkey.
  apply (AddGas_accepted json_Unmarshal broken' r o _ req).
  split; [eauto|]. split; [done|]. split; [done|].
  rewrite Hkey. revert Hdel. unfold DeleteGas. cbn zeta. cbn [WatchingGas logf].
  destruct (WatchingGas st !! _); [|done].
  intros _. cbn. apply lookup_delete_eq.
Qed.

(** X15.  Deleting is in memory only: the row that an accepted [AddGas]
    wrote to the store, token included, is still in the table after any
    [DeleteGas]. *)
Theorem AddGas_row_outlives_DeleteGas (broken : error) (r : Request)
    (st : State) (req : GasRequest.t) (db : gmap positive Row)
    (w' : ResponseWriter) (r' : Request) :
  accepted json_Unmarshal r req st →
  DB st = Some db →
  let st1 := (AddGas json_Unmarshal (newResponseWriter broken) r no_faults st).2 in
  ∃ db' i,
    DB (DeleteGas w' r' st1).2 = Some db' ∧
    db' !! i = Some (Gas_row (entry_of req st)) ∧
    row_token (Gas_row (entry_of req st)) = GasRequest.Token req.
Proof.
  intros Hacc Hdb st1.
  assert (Hst1 : DB st1 = Some (addGas_store (entry_of req st) no_faults db).1).
  { subst st1. rewrite (AddGas_accepted_eq json_Unmarshal broken r no_faults st req Hacc).
    cbn zeta.
    assert (Hs : DB (started req st) = Some db) by done.
    destruct broken; cbn [snd DB logf];
      by rewrite (addGas_DB _ no_faults (started req st) db Hs). }
  destruct (addGas_store_written (entry_of req st) db) as (i & Hw & _).
  exists (addGas_store (entry_of req st) no_faults db).1, i.
  split; [|split; [|done]].
  - unfold DeleteGas. cbn zeta. cbn [WatchingGas logf].
    by destruct (WatchingGas st1 !! _).
  - rewrite Hw. apply lookup_insert_eq.
Qed.

End Compositions.

(** ** Where a token goes *)

Lemma select_id_blank_token (db : gmap positive Row) (network : string) :
  select_id (blank_token <$> db) network = select_id db network.
Proof.
  unfold select_id. rewrite map_to_list_fmap. f_equal.
  induction (map_to_list db) as [|[i row] l IH]; [done|].
  rewrite fmap_cons, !filter_cons. cbn [prod_map fst snd id blank_token row_network].
  case_decide; [|done]. by rewrite !fmap_cons, IH.
Qed.

Lemma select_id_same_rows (db1 db2 : gmap positive Row) (network : string) :
  same_rows_but_tokens db1 db2 →
  select_id db1 network = select_id db2 network.
Proof.
  intros H. rewrite <- (select_id_blank_token db1), <- (select_id_blank_token db2).
  by rewrite H.
Qed.

Lemma Gas_row_redact (gas1 gas2 : Gas.t) :
  redact gas1 = redact gas2 →
  Gas.Network gas1 = Gas.Network gas2 ∧
  Gas.watcher gas1 = Gas.watcher gas2 ∧
  blank_token (Gas_row gas1) = blank_token (Gas_row gas2).
Proof.
  destruct gas1, gas2. unfold redact, Gas_row, blank_token. cbn.
  by intros [= -> -> -> ->].
Qed.

Lemma update_row_same_rows (db1 db2 : gmap positive Row) (row1 row2 : Row) (id : Z) :
  blank_token row1 = blank_token row2 →
  same_rows_but_tokens db1 db2 →
  same_rows_but_tokens (update_row db1 row1 id) (update_row db2 row2 id).
Proof.
  unfold same_rows_but_tokens, update_row. intros Hrow Hdb.
  destruct id as [|p|p]; try done.
  rewrite (fmap_alter blank_token _ (λ _, blank_token row1) db1) by done.
  rewrite (fmap_alter blank_token _ (λ _, blank_token row1) db2) by done.
  by rewrite Hdb.
Qed.

Lemma insert_row_same_rows (db1 db2 : gmap positive Row) (row1 row2 : Row) :
  blank_token row1 = blank_token row2 →
  same_rows_but_tokens db1 db2 →
  same_rows_but_tokens (insert_row db1 row1) (insert_row db2 row2).
Proof.
  unfold same_rows_but_tokens, insert_row. intros Hrow Hdb.
  assert (Hdom : dom db1 = dom db2).
  { by rewrite <- (dom_fmap_L blank_token db1), Hdb, dom_fmap_L. }
  by rewrite !fmap_insert, Hdom, Hrow, Hdb.
Qed.

(** The store's part of [addGas] on two tables and for two entries that
    differ only in tokens: the same log lines, and tables that differ only
    in tokens. *)
Lemma addGas_store_same_rows (gas1 gas2 : Gas.t) (o : StoreFaults)
    (db1 db2 : gmap positive Row) :
  redact gas1 = redact gas2 →
  same_rows_but_tokens db1 db2 →
  same_rows_but_tokens (addGas_store gas1 o db1).1 (addGas_store gas2 o db2).1 ∧
  (addGas_store gas1 o db1).2 = (addGas_store gas2 o db2).2.
Proof.
  intros Hgas Hdb.
  destruct (Gas_row_redact gas1 gas2 Hgas) as (Hnet & _ & Hrow).
  unfold addGas_store. rewrite <- Hnet.
  rewrite <- (select_id_same_rows db1 db2 (Gas.Network gas1) Hdb).
  destruct (prepare_query_err o); [done|].
  destruct (query_err o); [done|].
  destruct (scan_rows _ _ _ _) as [existingId|e]; [|done].
  destruct (negb _).
  - destruct (prepare_exec_err o); [done|].
    destruct (exec_err o); [done|].
    pose proof (update_row_same_rows db1 db2 _ _ existingId Hrow Hdb).
    by destruct (last_insert_id_err o).
  - destruct (prepare_exec_err o); [done|].
    destruct (exec_err o); [done|].
    pose proof (insert_row_same_rows db1 db2 _ _ Hrow Hdb).
    by destruct (last_insert_id_err o).
Qed.

Lemma logf_same_but_stored_tokens (lvl : Level) (msg : string) (st1 st2 : State) :
  same_but_stored_tokens st1 st2 →
  same_but_stored_tokens (logf lvl msg st1) (logf lvl msg st2).
Proof.
  intros (Hmap & Hdb & Hcnt & Htr). unfold same_but_stored_tokens. cbn.
  by rewrite Htr.
Qed.

Lemma addGas_same_but_stored_tokens (gas1 gas2 : Gas.t) (o : StoreFaults)
    (st1 st2 : State) :
  redact gas1 = redact gas2 →
  same_but_stored_tokens st1 st2 →
  same_but_stored_tokens (addGas gas1 o st1) (addGas gas2 o st2).
Proof.
  intros Hgas ([Hmap Hw] & Hdb & Hcnt & Htr).
  destruct (Gas_row_redact gas1 gas2 Hgas) as (Hnet & _ & _).
  unfold addGas. cbn [DB map_store gasCount_Inc].
  destruct (DB st1) as [db1|] eqn:H1, (DB st2) as [db2|] eqn:H2; try done.
  - destruct (addGas_store_same_rows gas1 gas2 o db1 db2 Hgas Hdb) as [Hdb' Hevs].
    destruct (addGas_store gas1 o db1) as [db1' evs1].
    destruct (addGas_store gas2 o db2) as [db2' evs2].
    cbn in Hdb', Hevs. subst evs2.
    unfold same_but_stored_tokens, same_but_tokens. cbn.
    rewrite !fmap_insert, Hgas, Hnet, Hmap, Hw, Hcnt, Htr. by repeat split.
  - unfold same_but_stored_tokens, same_but_tokens. cbn.
    rewrite H1, H2, !fmap_insert, Hgas, Hnet, Hmap, Hw, Hcnt, Htr.
    by repeat split.
Qed.

Section TokenFlow.

Variable json_Unmarshal : string → result GasRequest.t.

Lemma started_same_but_stored_tokens (q1 q2 : GasRequest.t) (st1 st2 : State) :
  same_but_token q1 q2 →
  same_but_stored_tokens st1 st2 →
  redact (entry_of q1 st1) = redact (entry_of q2 st2) ∧
  same_but_stored_tokens (started q1 st1) (started q2 st2).
Proof.
  intros (Hnet & Hnick & Hfreq & _) ([Hmap Hw] & Hdb & Hcnt & Htr).
  split.
  - unfold entry_of, redact. cbn. by rewrite Hnet, Hnick, Hfreq, Hw.
  - unfold started, same_but_stored_tokens, same_but_tokens. cbn.
    rewrite Hw, Htr. by repeat split.
Qed.

Lemma AddGas_same_but_stored_tokens (broken : error) (r1 r2 : Request)
    (o : StoreFaults) (st1 st2 : State) (body1 body2 : string)
    (q1 q2 : GasRequest.t) :
  Body r1 = Ok body1 → json_Unmarshal body1 = Ok q1 →
  Body r2 = Ok body2 → json_Unmarshal body2 = Ok q2 →
  same_but_token q1 q2 →
  same_but_stored_tokens st1 st2 →
  same_but_stored_tokens
    (AddGas json_Unmarshal (newResponseWriter broken) r1 o st1).2
    (AddGas json_Unmarshal (newResponseWriter broken) r2 o st2).2.
Proof.
  intros Hb1 Hd1 Hb2 Hd2 Hq Hsim.
  destruct (started_same_but_stored_tokens q1 q2 st1 st2 Hq Hsim) as [Hgas Hst].
  destruct Hq as (Hnet & Hnick & Hfreq & Htok).
  rewrite (AddGas_decoded json_Unmarshal broken r1 o st1 body1 q1 Hb1 Hd1).
  rewrite (AddGas_decoded json_Unmarshal broken r2 o st2 body2 q2 Hb2 Hd2).
  cbn zeta. rewrite <- Hnet.
  pose proof (same_but_tokens_lookup st1 st2
                (ToUpper (GasRequest.Network q1)) (proj1 Hsim)) as Hl.
  destruct (decide (GasRequest.Token q1 = EmptyString)) as [Ht1|Ht1];
    destruct (decide (GasRequest.Token q2 = EmptyString)) as [Ht2|Ht2];
    try tauto.
  { by do 2 apply logf_same_but_stored_tokens. }
  destruct (decide (GasRequest.Network q1 = EmptyString)).
  { by do 2 apply logf_same_but_stored_tokens. }
  destruct (decide (is_Some (WatchingGas st1 !! _))) as [Hs1|Hs1];
    destruct (decide (is_Some (WatchingGas st2 !! _))) as [Hs2|Hs2].
  - by do 2 apply logf_same_but_stored_tokens.
  - destruct Hs1 as [g Hg]. rewrite Hg in Hl.
    destruct (WatchingGas st2 !! _); [by destruct Hs2|done].
  - destruct Hs2 as [g Hg]. rewrite Hg in Hl.
    destruct (WatchingGas st1 !! _); [by destruct Hs1|done].
  - pose proof (addGas_same_but_stored_tokens _ _ o _ _ Hgas Hst).
    destruct broken; cbn [snd]; [by apply logf_same_but_stored_tokens|done].
Qed.

Lemma serve_same_but_stored_tokens (c1 c2 : Call) (st1 st2 : State) :
  call_variant json_Unmarshal c1 c2 →
  same_but_stored_tokens st1 st2 →
  same_but_stored_tokens (serve json_Unmarshal c1 st1).2
                         (serve json_Unmarshal c2 st2).2.
Proof.
  intros Hc Hsim.
  destruct Hc as [c|broken r1 r2 o body1 body2 q1 q2 Hb1 Hd1 Hb2 Hd2 Hq].
  - destruct c as [broken r o|broken r|broken r]; cbn [serve].
    + destruct (Body r) as [body|e] eqn:Hb.
      2: { unfold AddGas. rewrite Hb. by do 2 apply logf_same_but_stored_tokens. }
      destruct (json_Unmarshal body) as [req|e] eqn:Hd.
      2: { unfold AddGas. rewrite Hb, Hd.
           by do 2 apply logf_same_but_stored_tokens. }
      by apply (AddGas_same_but_stored_tokens broken r r o st1 st2 body body req req).
    + pose proof (same_but_tokens_lookup st1 st2
                    (ToUpper (index (Vars r) "id")) (proj1 Hsim)) as Hl.
      unfold DeleteGas. cbn zeta. cbn [WatchingGas logf].
      destruct (WatchingGas st1 !! _) as [g1|];
        destruct (WatchingGas st2 !! _) as [g2|]; try done.
      * assert (Hg : redact g1 = redact g2)
          by exact (f_equal (default (redact g1)) Hl).
        destruct (Gas_row_redact g1 g2 Hg) as (_ & Hw & _).
        destruct Hsim as ([Hmap Hws] & Hdb & Hcnt & Htr).
        unfold same_but_stored_tokens, same_but_tokens. cbn.
        rewrite !fmap_delete, Hmap, Hws, Hcnt, Htr, Hw. by repeat split.
      * by do 2 apply logf_same_but_stored_tokens.
    + unfold GetGas.
      assert (Henc : marshal_WatchingGas (WatchingGas st1) =
                     marshal_WatchingGas (WatchingGas st2)).
      { rewrite <- (marshal_WatchingGas_redact (WatchingGas st1)).
        rewrite <- (marshal_WatchingGas_redact (WatchingGas st2)).
        destruct Hsim as ([Hmap _] & _). by rewrite Hmap. }
      rewrite Henc.
      destruct (Encode _ _) as [w [e|]]; cbn [snd];
        [by apply logf_same_but_stored_tokens|done].
  - cbn [serve].
    by apply (AddGas_same_but_stored_tokens broken r1 r2 o st1 st2
                body1 body2 q1 q2).
Qed.

(** X16.  A token goes to the entry and to the token column of the store
    and nowhere else.  Two runs whose calls differ only in the tokens that
    the [AddGas] requests supply (empty in both or in neither), from
    states that differ only in tokens, end in states that differ only in
    the tokens of the entries and of the rows: the log lines and the other
    events, the gauge, the keys, the other fields of the entries and the
    other columns of the rows are the same. *)
Theorem run_same_but_stored_tokens (cs1 cs2 : list Call) (st1 st2 : State) :
  Forall2 (call_variant json_Unmarshal) cs1 cs2 →
  same_but_stored_tokens st1 st2 →
  same_but_stored_tokens (run json_Unmarshal cs1 st1).2
                         (run json_Unmarshal cs2 st2).2.
Proof.
  intros Hcs. revert st1 st2.
  induction Hcs as [|c1 c2 cs1 cs2 Hc Hcs IH]; intros st1 st2 Hsim; [done|].
  rewrite !run_cons. cbn [snd].
  apply IH. by apply serve_same_but_stored_tokens.
Qed.

End TokenFlow.

(** ** [addGas] undone by [DeleteGas] *)

(** X17.  [DeleteGas] undoes [addGas] in memory and only there: after
    [addGas] of an entry whose key was not in the map, a [DeleteGas] whose
    upper-cased id is that key answers 204, signals the entry's watcher,
    and gives back the map and the gauge as they were, while the store
    stays as [addGas] left it. *)
Theorem addGas_then_DeleteGas (gas : Gas.t) (o : StoreFaults) (st : State)
    (broken : error) (r : Request) :
  WatchingGas st !! Gas.Network gas = None →
  ToUpper (index (Vars r) "id") = Gas.Network gas →
  let st1 := addGas gas o st in
  let res := DeleteGas (newResponseWriter broken) r st1 in
  status res.1 = Some StatusNoContent ∧
  WatchingGas res.2 = WatchingGas st ∧
  gasCount res.2 = gasCount st ∧
  DB res.2 = DB st1 ∧
  WatcherShutdown (Gas.watcher gas) ∈ trace res.2.
Proof.
  intros Hnew Hid st1 res. subst res. unfold DeleteGas. cbn zeta.
  rewrite Hid. cbn [WatchingGas logf].
  assert (Hin : WatchingGas st1 !! Gas.Network gas = Some gas).
  { subst st1. rewrite addGas_WatchingGas. apply lookup_insert_eq. }
  rewrite Hin. cbn [fst snd].
  split; [done|].
  split; [cbn; subst st1; rewrite addGas_WatchingGas; by apply delete_insert_id|].
  split; [cbn; subst st1; rewrite addGas_gasCount; lia|].
  split; [done|].
  cbn. rewrite !elem_of_app. do 3 left. right. by apply list_elem_of_singleton.
Qed.

(** * Further examples *)

Lemma AddGas_body_read_error_witness :
  Body (mkRequest (Err "unexpected EOF") ∅) = Err "unexpected EOF" ∧
  status (AddGas sample_Unmarshal (newResponseWriter None)
                 (mkRequest (Err "unexpected EOF") ∅) no_faults watching_eth).1
    = Some StatusInternalServerError.
Proof.
  split; [reflexivity|].
  apply (AddGas_body_read_error sample_Unmarshal None
           (mkRequest (Err "unexpected EOF") ∅) no_faults watching_eth
           "unexpected EOF" eq_refl).
Defined.

Lemma AddGas_failure_has_no_effect_witness :
  status (AddGas sample_Unmarshal (newResponseWriter None) post_ETH_abc
                 no_faults watching_eth).1 ≠ Some StatusOK ∧
  no_mutation watching_eth
    (AddGas sample_Unmarshal (newResponseWriter None) post_ETH_abc
            no_faults watching_eth).2.
Proof.
  assert (Hne : status (AddGas sample_Unmarshal (newResponseWriter None)
                          post_ETH_abc no_faults watching_eth).1 ≠ Some StatusOK).
  { vm_compute. discriminate. }
  split; [exact Hne|].
  apply (AddGas_failure_has_no_effect sample_Unmarshal None post_ETH_abc
           no_faults watching_eth Hne).
Defined.

Lemma DeleteGas_absent_witness :
  WatchingGas watching_eth !! ToUpper (index (Vars (delete_id "btc")) "id") = None ∧
  status (DeleteGas (newResponseWriter None) (delete_id "btc") watching_eth).1
    = Some StatusNotFound.
Proof.
  split; [reflexivity|].
  apply (DeleteGas_absent None (delete_id "btc") watching_eth eq_refl).
Defined.

Lemma DeleteGas_case_insensitive_witness :
  ToUpper (index (Vars (delete_id "eth")) "id")
    = ToUpper (index (Vars (delete_id "Eth")) "id") ∧
  DeleteGas (newResponseWriter None) (delete_id "eth") watching_eth
    = DeleteGas (newResponseWriter None) (delete_id "Eth") watching_eth.
Proof.
  split; [reflexivity|].
  apply (DeleteGas_case_insensitive (newResponseWriter None) (delete_id "eth")
           (delete_id "Eth") watching_eth eq_refl).
Defined.

Lemma addGas_store_frame_witness :
  ({[2%positive := mkRow "tok" false "BTC" 30]} : gmap positive Row) !! 2%positive
    = Some (mkRow "tok" false "BTC" 30) ∧
  (addGas_store (entry_of eth_abc (initial None)) no_faults
                {[2%positive := mkRow "tok" false "BTC" 30]}).1 !! 2%positive
    = Some (mkRow "tok" false "BTC" 30).
Proof.
  split; [reflexivity|].
  apply (addGas_store_frame (entry_of eth_abc (initial None)) no_faults
           {[2%positive := mkRow "tok" false "BTC" 30]}); [reflexivity|].
  discriminate.
Defined.

Lemma addGas_store_size_witness :
  (∃ j row, ({[1%positive := mkRow "old" false "ETH" 60]} : gmap positive Row) !! j
              = Some row ∧
            row_network row = Gas.Network (entry_of eth_abc (initial None))) ∧
  size (addGas_store (entry_of eth_abc (initial None)) no_faults
                     {[1%positive := mkRow "old" false "ETH" 60]}).1
    = size ({[1%positive := mkRow "old" false "ETH" 60]} : gmap positive Row).
Proof.
  assert (Hrow : ∃ j row,
    ({[1%positive := mkRow "old" false "ETH" 60]} : gmap positive Row) !! j
      = Some row ∧
    row_network row = Gas.Network (entry_of eth_abc (initial None))).
  { exists 1%positive, (mkRow "old" false "ETH" 60). split; reflexivity. }
  split; [exact Hrow|].
  apply (addGas_store_size (entry_of eth_abc (initial None)) no_faults
           {[1%positive := mkRow "old" false "ETH" 60]}). exact Hrow.
Defined.

Lemma addGas_store_idempotent_witness :
  (at_most_one_row "ETH" (∅ : gmap positive Row) ∧ next_err exec_fails = None) ∧
  (addGas_store (entry_of eth_abc (initial None)) exec_fails
     (addGas_store (entry_of eth_abc (initial None)) no_faults ∅).1).1
    = (addGas_store (entry_of eth_abc (initial None)) no_faults ∅).1.
Proof.
  assert (Hone : at_most_one_row "ETH" (∅ : gmap positive Row)).
  { intros i j ri rj Hi. by rewrite lookup_empty in Hi. }
  split; [split; [exact Hone|reflexivity]|].
  apply (addGas_store_idempotent (entry_of eth_abc (initial None)) exec_fails ∅
           Hone eq_refl).
Defined.


Lemma addGas_existing_key_witness :
  WatchingGas watching_eth !! Gas.Network (entry_of eth_xyz watching_eth)
    = Some (entry_of eth_abc (initial None)) ∧
  size (WatchingGas (addGas (entry_of eth_xyz watching_eth) no_faults watching_eth))
    = size (WatchingGas watching_eth) ∧
  gasCount (addGas (entry_of eth_xyz watching_eth) no_faults watching_eth)
    = gasCount watching_eth + 1.
Proof.
  assert (Hold : WatchingGas watching_eth !! Gas.Network (entry_of eth_xyz watching_eth)
                 = Some (entry_of eth_abc (initial None))).
  { vm_compute. reflexivity. }
  split; [exact Hold|].
  destruct (addGas_existing_key (entry_of eth_xyz watching_eth) _ no_faults
              watching_eth Hold) as (_ & Hsize & Hcount & _).
  split; [exact Hsize|exact Hcount].
Defined.

Lemma run_gauge_counts_entries_witness :
  gauge_counts_entries (initial None) ∧
  gauge_counts_entries
    (run sample_Unmarshal
         [CallAdd None post_eth_abc no_faults; CallAdd None post_ETH_abc no_faults;
          CallDelete None (delete_id "eth"); CallDelete None (delete_id "eth")]
         (initial None)).2.
Proof.
  assert (H0 : gauge_counts_entries (initial None)) by reflexivity.
  split; [exact H0|].
  apply (run_gauge_counts_entries sample_Unmarshal _ (initial None) H0).
Defined.

Lemma DeleteGas_then_AddGas_witness :
  status (DeleteGas (newResponseWriter None) (delete_id "eth") watching_eth).1
    = Some StatusNoContent ∧
  status (AddGas sample_Unmarshal (newResponseWriter None) post_ETH_abc no_faults
            (DeleteGas (newResponseWriter None) (delete_id "eth") watching_eth).2).1
    = Some StatusOK.
Proof.
  split; [reflexivity|].
  apply (DeleteGas_then_AddGas sample_Unmarshal None None (delete_id "eth")
           post_ETH_abc no_faults watching_eth _ ETH_abc eq_refl eq_refl eq_refl);
    [discriminate|discriminate|reflexivity].
Defined.

Lemma AddGas_row_outlives_DeleteGas_witness :
  (accepted sample_Unmarshal post_eth_abc eth_abc (initial (Some ∅)) ∧
   DB (initial (Some ∅)) = Some ∅) ∧
  ∃ db' i,
    DB (DeleteGas (newResponseWriter None) (delete_id "eth") watching_eth_stored).2
      = Some db' ∧
    db' !! i = Some (Gas_row (entry_of eth_abc (initial (Some ∅)))) ∧
    row_token (Gas_row (entry_of eth_abc (initial (Some ∅)))) = "abc".
Proof.
  assert (Hacc : accepted sample_Unmarshal post_eth_abc eth_abc (initial (Some ∅))).
  { apply sample_accepted. reflexivity. }
  split; [split; [exact Hacc|reflexivity]|].
  exact (AddGas_row_outlives_DeleteGas sample_Unmarshal None post_eth_abc
           (initial (Some ∅)) eth_abc ∅ (newResponseWriter None) (delete_id "eth")
           Hacc eq_refl).
Defined.

Lemma run_same_but_stored_tokens_witness :
  (Forall2 (call_variant sample_Unmarshal)
     [CallAdd None post_eth_abc exec_fails; CallDelete None (delete_id "eth")]
     [CallAdd None post_eth_xyz exec_fails; CallDelete None (delete_id "eth")] ∧
   same_but_stored_tokens (initial (Some ∅)) (initial (Some ∅))) ∧
  trace (run sample_Unmarshal
           [CallAdd None post_eth_abc exec_fails; CallDelete None (delete_id "eth")]
           (initial (Some ∅))).2 =
  trace (run sample_Unmarshal
           [CallAdd None post_eth_xyz exec_fails; CallDelete None (delete_id "eth")]
           (initial (Some ∅))).2.
Proof.
  assert (Hcs : Forall2 (call_variant sample_Unmarshal)
     [CallAdd None post_eth_abc exec_fails; CallDelete None (delete_id "eth")]
     [CallAdd None post_eth_xyz exec_fails; CallDelete None (delete_id "eth")]).
  { constructor.
    - apply (variant_token sample_Unmarshal None post_eth_abc post_eth_xyz exec_fails
               _ _ eth_abc eth_xyz eq_refl eq_refl eq_refl eq_refl).
      repeat split; discriminate.
    - constructor; [apply variant_same|constructor]. }
  assert (H0 : same_but_stored_tokens (initial (Some ∅)) (initial (Some ∅))).
  { repeat split. }
  split; [split; [exact Hcs|exact H0]|].
  apply (run_same_but_stored_tokens sample_Unmarshal _ _ _ _ Hcs H0).
Defined.

Lemma addGas_then_DeleteGas_witness :
  (WatchingGas (initial None) !! Gas.Network (entry_of eth_abc (initial None)) = None ∧
   ToUpper (index (Vars (delete_id "eth")) "id")
     = Gas.Network (entry_of eth_abc (initial None))) ∧
  WatchingGas
    (DeleteGas (newResponseWriter None) (delete_id "eth")
       (addGas (entry_of eth_abc (initial None)) no_faults (initial None))).2
    = WatchingGas (initial None).
Proof.
  split; [split; reflexivity|].
  apply (addGas_then_DeleteGas (entry_of eth_abc (initial None)) no_faults
           (initial None) None (delete_id "eth") eq_refl eq_refl).
Defined.
